(** * ChartStatsDialog: reference collection, resolution and ranking

    A shallow embedding of the statistics computation performed by the
    effect of [ChartStatsDialog] (src/components/dialogs/ChartStatsDialog.tsx,
    lines 52-100) together with the display-time filter of its render
    function (lines 123-131).

    The file is organised as the source is:
    - [JS]: the fragment of the language's built-ins the effect relies on
      (numbers, truthiness, [Set], [Array.prototype.sort]);
    - the data model (the interfaces declared at the top of the source);
    - the five numbered steps of the effect, on values of the declared
      types ([Stats], [Dialog]);
    - the same steps on whatever [JSON.parse] returns ([Json], [Raw]), where
      [Number] has to convert and the [try] block can throw;
    - the properties of the result. *)

From Stdlib Require Import QArith Qcanon.
From stdpp Require Import base numbers list strings gmap sorting.

Local Open Scope string_scope.

(** ** The JavaScript fragment *)

Module JS.

(** The [number] type.  A double is [NaN], an infinity, or a finite value;
    every finite double is a rational, so the finite values are embedded in
    [Qc] (canonical rationals, which have Leibniz equality).  The two zeros
    [+0] and [-0] are identified: the program only tests numbers for
    truthiness, for the sign of a difference and against [0], and none of
    these separates them. *)
Inductive number : Type :=
  | NaN
  | NegInf
  | Fin (q : Qc)
  | PosInf.

Global Instance number_eq_dec : EqDecision number.
Proof. solve_decision. Defined.

Definition of_Z (z : Z) : number := Fin (Qc_of_Z z).
Definition zero : number := of_Z 0.

(** [Number(v)] for the two kinds of value a lookup in a
    [Record<string, number>] yields: [undefined] (here [None]) converts to
    [NaN], a number converts to itself.  What [Number] does to an entry of
    any other kind is [Json.ToNumber]. *)
Definition Number (v : option number) : number :=
  match v with
  | None => NaN
  | Some n => n
  end.

(** [ToBoolean] on numbers: [NaN] and zero are falsy. *)
Definition truthy (n : number) : bool :=
  match n with
  | NaN => false
  | Fin q => negb (bool_decide (q = Qc_of_Z 0))
  | NegInf | PosInf => true
  end.

(** [a || b] on numbers. *)
Definition lor (a b : number) : number := if truthy a then a else b.

(** [a - b].  On finite operands the double result is the rounding of the
    exact difference; rounding keeps the sign and keeps a non-zero
    difference non-zero (the difference of two doubles is a multiple of the
    smallest subnormal), and the program only reads the sign, so the exact
    difference stands for it. *)
Definition sub (a b : number) : number :=
  match a, b with
  | NaN, _ | _, NaN => NaN
  | PosInf, PosInf | NegInf, NegInf => NaN
  | PosInf, _ | _, NegInf => PosInf
  | NegInf, _ | _, PosInf => NegInf
  | Fin x, Fin y => Fin (x - y)
  end.

(** [a < b] and [a <= b]: false as soon as an operand is [NaN]. *)
Definition ltb (a b : number) : bool :=
  match a, b with
  | NaN, _ | _, NaN => false
  | _, NegInf | PosInf, _ => false
  | NegInf, _ | _, PosInf => true
  | Fin x, Fin y => bool_decide (x < y)%Qc
  end.

Definition leb (a b : number) : bool :=
  match a, b with
  | NaN, _ | _, NaN => false
  | NegInf, _ | _, PosInf => true
  | _, NegInf | PosInf, _ => false
  | Fin x, Fin y => bool_decide (x ≤ y)%Qc
  end.

Definition gtb (a b : number) : bool := ltb b a.
Definition geb (a b : number) : bool := leb b a.
Arguments gtb : simpl never.
Arguments geb : simpl never.

(** [ToBoolean] on an optional string: [undefined] and the empty string are
    falsy. *)
Definition truthy_str (s : option string) : bool :=
  match s with
  | None => false
  | Some s => negb (bool_decide (s = ""))
  end.

(** [Set<string>].  A [Set] keeps its members in insertion order and
    [Array.from] lists them in that order, which the stable sort below makes
    observable; so a set is its list of members, oldest first. *)
Module Set_.
Abbreviation t := (list string) (only parsing).
Definition empty : t := [].
Definition add (x : string) (s : t) : t :=
  if bool_decide (x ∈ s) then s else s ++ [x].
Definition Array_from (s : t) : list string := s.
End Set_.

(** [Array.prototype.sort(comparefn)].  The language requires the sort to be
  stable and, for a consistent comparator, to return the sorted
  permutation; that result is unique, so one stable algorithm stands for
  every engine's: insertion, right to left.  [x] was before every element
  of [l] in the array, and moves behind [y] only when [comparefn(x, y) > 0]
  (a [NaN] result counts as [+0]). *)
Section sort.
Context {A : Type} (comparefn : A → A → number).

Fixpoint insert (x : A) (l : list A) : list A :=
  match l with
  | [] => [x]
  | y :: l' =>
      if gtb (comparefn x y) zero then y :: insert x l' else x :: l
  end.

Fixpoint sort (l : list A) : list A :=
  match l with
  | [] => []
  | x :: l' => insert x (sort l')
  end.
End sort.

(** [arr.slice(0, n)]. *)
Definition slice0 {A : Type} (n : nat) (l : list A) : list A := take n l.

End JS.

(** ** Data model *)

(** [interface Range] and [interface Folder] (source lines 15-24). *)
Module Range.
Record t : Type := { id : string; name : string }.
End Range.

Module Folder.
Record t : Type := { id : string; name : string; ranges : list Range.t }.
End Folder.

(** [type StatsData = Record<string, number>] (line 27).  A lookup of a key
    the object does not own yields [undefined], or, for the few names
    inherited from [Object.prototype], a function or an object; [Number]
    sends each of these to [NaN], so a missing key is [None] throughout. *)
Abbreviation StatsData := (gmap string JS.number) (only parsing).

(** [interface ProcessedStat] (lines 29-34). *)
Module ProcessedStat.
Record t : Type :=
  { id : string; folderName : string; rangeName : string; count : JS.number }.

#[global] Instance eq_dec : EqDecision t.
Proof. solve_decision. Defined.
End ProcessedStat.

(** The declaration of [StoredChart] ("@/types/chart") is not among the
    sources; the three records below follow the specification's data model
    (section 3) and are named as the effect reads them (lines 70-76). *)

Module LinkButton.
(** Modelled from the spec: the missing declaration of a LinkButton, which
    "has an [enabled] flag and a [targetRangeId]" and contributes "only when
    [enabled] is true and [targetRangeId] is present": a flag and an id that
    may be absent. *)
Record t : Type := { enabled : bool; targetRangeId : option string }.
End LinkButton.

Module ChartButton.
(** Modelled from the spec: the missing declaration of a Button, "a
    discriminated variant" whose kind "normal" "optionally carries a single
    [linkedItem] reference" and of which "any kind may additionally carry a
    sequence of LinkButton entries".  The effect reads [linkedItem] and
    [linkButtons] off every button, so the kind is the [type] tag and both
    fields are optional. *)
Record t : Type :=
  { type : string;
    linkedItem : option string;
    linkButtons : option (list LinkButton.t) }.
End ChartButton.

Module StoredChart.
(** Modelled from the spec: the missing declaration of a Chart, which "has a
    name and an ordered sequence of Buttons". *)
Record t : Type := { name : string; buttons : list ChartButton.t }.
End StoredChart.

(** The value type of [rangeDetailsMap] (line 61). *)
Module Details.
Record t : Type := { folderName : string; rangeName : string }.
End Details.

(** ** The effect, step by step *)

Module Stats.
Import JS.

(** Step 2 (lines 61-66): the map from range id to names.  [Map.set]
    overwrites, and both [forEach] loops run in array order. *)
Definition setRange (folder : Folder.t)
    (m : gmap string Details.t) (range : Range.t) : gmap string Details.t :=
  <[Range.id range :=
      {| Details.folderName := Folder.name folder;
         Details.rangeName := Range.name range |}]> m.

Definition setFolder
    (m : gmap string Details.t) (folder : Folder.t) : gmap string Details.t :=
  foldl (setRange folder) m (Folder.ranges folder).

Definition rangeDetailsMap (allFolders : list Folder.t) : gmap string Details.t :=
  foldl setFolder ∅ allFolders.

(** Step 3 (lines 69-81): the set of range ids the chart refers to. *)
Definition isRangeLink (button : ChartButton.t) : bool :=
  bool_decide (ChartButton.type button = "normal")
  && truthy_str (ChartButton.linkedItem button)
  && negb (bool_decide (ChartButton.linkedItem button = Some "label-only"))
  && negb (bool_decide (ChartButton.linkedItem button = Some "exit")).

Definition addLinkedItem (s : list string) (button : ChartButton.t) : list string :=
  if isRangeLink button
  then match ChartButton.linkedItem button with
       | Some linkedItem => Set_.add linkedItem s
       | None => s
       end
  else s.

Definition addLinkBtn (s : list string) (linkBtn : LinkButton.t) : list string :=
  if LinkButton.enabled linkBtn && truthy_str (LinkButton.targetRangeId linkBtn)
  then match LinkButton.targetRangeId linkBtn with
       | Some targetRangeId => Set_.add targetRangeId s
       | None => s
       end
  else s.

Definition addLinkButtons (s : list string) (button : ChartButton.t) : list string :=
  match ChartButton.linkButtons button with
  | Some linkButtons => foldl addLinkBtn s linkButtons
  | None => s
  end.

Definition addButton (s : list string) (button : ChartButton.t) : list string :=
  addLinkButtons (addLinkedItem s button) button.

Definition chartRangeIds (chart : StoredChart.t) : list string :=
  foldl addButton Set_.empty (StoredChart.buttons chart).

(** Step 4 (lines 84-93): one [ProcessedStat] per id. *)
Definition countOf (allStats : StatsData) (rangeId : string) : number :=
  lor (Number (allStats !! rangeId)) zero.

Definition deletedFolder : string := "Удаленная папка".
Definition rangeNotFound : string := "(Ренж не найден)".

Definition processStat (allStats : StatsData)
    (rangeDetailsMap : gmap string Details.t) (rangeId : string) : ProcessedStat.t :=
  let count := countOf allStats rangeId in
  let details := rangeDetailsMap !! rangeId in
  {| ProcessedStat.id := rangeId;
     ProcessedStat.folderName :=
       match details with Some d => Details.folderName d | None => deletedFolder end;
     ProcessedStat.rangeName :=
       match details with Some d => Details.rangeName d | None => rangeNotFound end;
     ProcessedStat.count := count |}.

Definition processedStats (chart : StoredChart.t)
    (allFolders : list Folder.t) (allStats : StatsData) : list ProcessedStat.t :=
  map (processStat allStats (rangeDetailsMap allFolders))
      (Set_.Array_from (chartRangeIds chart)).

(** Step 5 (lines 96-98): sort by count, largest first, and keep ten. *)
Definition byCountDesc (a b : ProcessedStat.t) : number :=
  sub (ProcessedStat.count b) (ProcessedStat.count a).

Definition sortedStats (chart : StoredChart.t)
    (allFolders : list Folder.t) (allStats : StatsData) : list ProcessedStat.t :=
  sort byCountDesc (processedStats chart allFolders allStats).

Definition topStats (chart : StoredChart.t)
    (allFolders : list Folder.t) (allStats : StatsData) : list ProcessedStat.t :=
  slice0 10 (sortedStats chart allFolders allStats).

(** The order the result is claimed to be in: [a] may stand before [b] when
    [a.count >= b.count]. *)
Definition descending (a b : ProcessedStat.t) : Prop :=
  geb (ProcessedStat.count a) (ProcessedStat.count b) = true.

(** The two items of [localStorage] after [JSON.parse]; an absent item is
    [None] and stands for [{}], respectively [[]] (lines 54-58). *)
Record Storage : Type :=
  { trainingStatistics : option (gmap string number);
    pokerRangesFolders : option (list Folder.t) }.

(** The effect (lines 46-107) as a transition of the [stats] state: nothing
    happens unless the dialog is open and has a chart.  With inputs of the
    declared types no step of the [try] block throws, so the [catch] branch
    ([setStats([])]) has no counterpart here. *)
Definition effect (isOpen : bool) (chart : option StoredChart.t)
    (storage : Storage) (stats : list ProcessedStat.t) : list ProcessedStat.t :=
  match chart with
  | Some chart =>
      if isOpen then
        let allStats := default ∅ (trainingStatistics storage) in
        let allFolders := default [] (pokerRangesFolders storage) in
        topStats chart allFolders allStats
      else stats
  | None => stats
  end.

(** The list the render function shows (lines 125-131): entries with a
    positive count. *)
Definition displayed (stats : list ProcessedStat.t) : list ProcessedStat.t :=
  filter (λ stat, gtb (ProcessedStat.count stat) zero = true) stats.

End Stats.

(** ** The collected references as a sequence

    The arguments of the successive [chartRangeIds.add] calls, in the order
    the two loops make them; the set is what is left of it once repeats are
    dropped. *)

Module Refs.
Import JS Stats.

Definition ofLinkedItem (button : ChartButton.t) : list string :=
  if isRangeLink button then option_list (ChartButton.linkedItem button) else [].

Definition ofLinkBtn (linkBtn : LinkButton.t) : list string :=
  if LinkButton.enabled linkBtn && truthy_str (LinkButton.targetRangeId linkBtn)
  then option_list (LinkButton.targetRangeId linkBtn) else [].

Definition ofLinkButtons (button : ChartButton.t) : list string :=
  match ChartButton.linkButtons button with
  | Some linkButtons => flat_map ofLinkBtn linkButtons
  | None => []
  end.

Definition ofButton (button : ChartButton.t) : list string :=
  ofLinkedItem button ++ ofLinkButtons button.

Definition ofChart (chart : StoredChart.t) : list string :=
  flat_map ofButton (StoredChart.buttons chart).

(** [collect s refs]: the set [s] after [add] was called on each of [refs]. *)
Definition collect (s : list string) (refs : list string) : list string :=
  foldl (λ s x, Set_.add x s) s refs.

(** The catalog as the sequence of [rangeDetailsMap.set] calls. *)
Definition ofFolder (folder : Folder.t) : list (string * Details.t) :=
  map (λ range, (Range.id range,
                 {| Details.folderName := Folder.name folder;
                    Details.rangeName := Range.name range |}))
      (Folder.ranges folder).

Definition ofCatalog (allFolders : list Folder.t) : list (string * Details.t) :=
  flat_map ofFolder allFolders.

(** The button as it would be without its [linkedItem]. *)
Definition withoutLinkedItem (button : ChartButton.t) : ChartButton.t :=
  {| ChartButton.type := ChartButton.type button;
     ChartButton.linkedItem := None;
     ChartButton.linkButtons := ChartButton.linkButtons button |}.

(** The button as it would be without its disabled link buttons. *)
Definition withoutDisabled (button : ChartButton.t) : ChartButton.t :=
  {| ChartButton.type := ChartButton.type button;
     ChartButton.linkedItem := ChartButton.linkedItem button;
     ChartButton.linkButtons :=
       filter (λ linkBtn, LinkButton.enabled linkBtn = true)
         <$> ChartButton.linkButtons button |}.

(** The entries of [stats] whose id is [rangeId]. *)
Definition entriesOf (rangeId : string)
    (stats : list ProcessedStat.t) : list ProcessedStat.t :=
  filter (λ stat, ProcessedStat.id stat = rangeId) stats.

(** [setAll m entries]: the map [m] after [set] was called on each entry. *)
Definition setAll (m : gmap string Details.t)
    (entries : list (string * Details.t)) : gmap string Details.t :=
  foldl (λ m entry, <[entry.1 := entry.2]> m) m entries.

End Refs.

(** ** Sample inputs

    The scenarios of the specification's section 8 and a few inputs at the
    edges of the guards. *)

Module Samples.
Import JS Stats Refs.

Definition normalButton (linkedItem : string) : ChartButton.t :=
  {| ChartButton.type := "normal";
     ChartButton.linkedItem := Some linkedItem;
     ChartButton.linkButtons := None |}.

Definition link (enabled : bool) (targetRangeId : string) : LinkButton.t :=
  {| LinkButton.enabled := enabled;
     LinkButton.targetRangeId := Some targetRangeId |}.

Definition linksButton (linkButtons : list LinkButton.t) : ChartButton.t :=
  {| ChartButton.type := "link";
     ChartButton.linkedItem := None;
     ChartButton.linkButtons := Some linkButtons |}.

Definition chartOf (buttons : list ChartButton.t) : StoredChart.t :=
  {| StoredChart.name := "chart"; StoredChart.buttons := buttons |}.

Definition stat (id folderName rangeName : string) (count : Z) : ProcessedStat.t :=
  {| ProcessedStat.id := id;
     ProcessedStat.folderName := folderName;
     ProcessedStat.rangeName := rangeName;
     ProcessedStat.count := of_Z count |}.

(** One normal button to [r1], one enabled link to [r2]; folder [F] holds
    [r1] as [A] and [r2] as [B]; usage [{r1: 5, r2: 9}]. *)
Definition twoRefs : StoredChart.t :=
  chartOf [normalButton "r1"; linksButton [link true "r2"]].

Definition folderF : Folder.t :=
  {| Folder.id := "f"; Folder.name := "F";
     Folder.ranges := [ {| Range.id := "r1"; Range.name := "A" |};
                        {| Range.id := "r2"; Range.name := "B" |} ] |}.

Definition usage59 : gmap string number :=
  <["r1" := of_Z 5]> (<["r2" := of_Z 9]> ∅).

(** [r1] is referred to three times: by two normal buttons and by a link. *)
Definition repeated : StoredChart.t :=
  chartOf [normalButton "r1"; linksButton [link true "r1"; link true "r2"];
           normalButton "r1"].

(** A reference to [r3], which no folder holds; usage [{r3: 2}]. *)
Definition orphan : StoredChart.t := chartOf [normalButton "r3"].
Definition usage2 : gmap string number := <["r3" := of_Z 2]> ∅.

(** Eleven distinct references, none of them ever used. *)
Definition eleven : StoredChart.t :=
  chartOf [linksButton (link true <$>
    ["a"; "b"; "c"; "d"; "e"; "f"; "g"; "h"; "i"; "j"; "k"])].

(** Two folders that both hold a range with id [r1]. *)
Definition folderG : Folder.t :=
  {| Folder.id := "g"; Folder.name := "G";
     Folder.ranges := [ {| Range.id := "r1"; Range.name := "C" |} ] |}.

Definition detailsGC : Details.t :=
  {| Details.folderName := "G"; Details.rangeName := "C" |}.

(** A button whose link list has a disabled entry and an empty target. *)
Definition deadLinks : ChartButton.t :=
  linksButton [link false "r9"; link true ""].

End Samples.

(** ** The component: state, effect and render

    The rest of [ChartStatsDialog]: the two state cells (lines 43-44), the
    whole effect with its guard, its [try]/[catch]/[finally] and the reads of
    [localStorage] (lines 46-107), and what the render function puts in the
    body of the dialog (lines 118-143). *)

Module Dialog.
Import JS Stats.

(** One item of [localStorage] as the effect uses it (lines 54-58):
    [raw ? JSON.parse(raw) : dflt].  [Absent] is a falsy [raw] ([null], or the
    empty string); [Malformed] is a [raw] on which [JSON.parse] throws;
    [Parsed a] is a [raw] that parses to the value [a] of the declared type.
    A [raw] that parses to a value of another shape is a [Raw.Item]. *)
Inductive Item (A : Type) : Type :=
  | Absent
  | Malformed
  | Parsed (a : A).
Arguments Absent {A}.
Arguments Malformed {A}.
Arguments Parsed {A} a.

Record LocalStorage : Type :=
  { training_statistics : Item (gmap string number);
    poker_ranges_folders : Item (list Folder.t) }.

(** [raw ? JSON.parse(raw) : dflt]; [None] when [JSON.parse] throws. *)
Definition parseOr {A : Type} (item : Item A) (dflt : A) : option A :=
  match item with
  | Absent => Some dflt
  | Malformed => None
  | Parsed a => Some a
  end.

(** [interface ChartStatsDialogProps] (lines 36-40), without the callback. *)
Record Props : Type := { isOpen : bool; chart : option StoredChart.t }.

(** The two [useState] cells (lines 43-44). *)
Module State.
Record t : Type := { stats : list ProcessedStat.t; isLoading : bool }.
Definition initial : t := {| stats := []; isLoading := true |}.
Definition setStats (stats : list ProcessedStat.t) (st : t) : t :=
  {| stats := stats; isLoading := isLoading st |}.
Definition setIsLoading (isLoading : bool) (st : t) : t :=
  {| stats := stats st; isLoading := isLoading |}.
End State.

(** The [try] block (lines 53-100): the two reads, then steps 2 to 5.
    [None] when one of the reads throws. *)
Definition tryBlock (chart : StoredChart.t) (storage : LocalStorage)
    : option (list ProcessedStat.t) :=
  allStats ← parseOr (training_statistics storage) ∅;
  allFolders ← parseOr (poker_ranges_folders storage) [];
  Some (topStats chart allFolders allStats).

Definition errorMessage : string := "Ошибка при обработке статистики чарта:".

(** The effect (lines 46-107): the state it leaves and the message of each
    [console.error] call it made. *)
Definition useEffect (props : Props) (storage : LocalStorage)
    (st : State.t) : State.t * list string :=
  match chart props with
  | Some chart =>
      if isOpen props then
        let st := State.setIsLoading true st in
        let '(st, console) :=
          match tryBlock chart storage with
          | Some topStats => (State.setStats topStats st, [])
          | None => (State.setStats [] st, [errorMessage])
          end in
        (State.setIsLoading false st, console)
      else (st, [])
  | None => (st, [])
  end.

(** The state after the effect has fired for each of [inputs] in turn,
    starting from the initial state. *)
Definition afterEffects (inputs : list (Props * LocalStorage)) : State.t :=
  foldl (λ st input, (useEffect input.1 input.2 st).1) State.initial inputs.

(** Whether the guard of line 47 lets the effect run. *)
Definition runs (props : Props) : bool :=
  isOpen props && bool_decide (is_Some (chart props)).

(** One [<li>] of the list (lines 126-129): its [key], the text of its first
    [<span>], and the number its second [<span>] shows. *)
Module Row.
Record t : Type := { key : string; heading : string; count : number }.
End Row.

Definition row (stat : ProcessedStat.t) : Row.t :=
  {| Row.key := ProcessedStat.id stat;
     Row.heading :=
       ProcessedStat.folderName stat ++ " - " ++ ProcessedStat.rangeName stat ++ ":";
     Row.count := ProcessedStat.count stat |}.

(** The body of the dialog (lines 119-142): the spinner, or the [<ol>] with
    its rows and, when it has none, the "no data" notice, or the "no linked
    ranges" notice. *)
Inductive Body : Type :=
  | Spinner
  | OrderedList (rows : list Row.t) (noData : bool)
  | NoLinkedRanges.

Definition body (st : State.t) : Body :=
  if State.isLoading st then Spinner
  else if bool_decide (0 < length (State.stats st))%nat then
    OrderedList
      (row <$> filter (λ stat, gtb (ProcessedStat.count stat) zero = true)
                      (State.stats st))
      (bool_decide
         (length (filter (λ stat, gtb (ProcessedStat.count stat) zero = true)
                         (State.stats st)) = 0%nat))
  else NoLinkedRanges.

End Dialog.

(** ** Orders of reference

    What the set holds, read as a function of the sequence of references:
    each id once, at the place of its first occurrence. *)

Module Order.

Fixpoint firstSeen (refs : list string) : list string :=
  match refs with
  | [] => []
  | x :: refs => x :: filter (λ y, y ≠ x) (firstSeen refs)
  end.

End Order.

(** ** More sample inputs *)

Module MoreSamples.
Import JS Stats Samples.

(** A folder none of whose ranges the sample charts refer to. *)
Definition folderH : Folder.t :=
  {| Folder.id := "h"; Folder.name := "H";
     Folder.ranges := [ {| Range.id := "r8"; Range.name := "Z" |} ] |}.

(** [usage59] with an entry for an id the sample charts do not refer to. *)
Definition usage59more : gmap string number := <["r8" := of_Z 100]> usage59.

(** Usage for the eleven references of [eleven]: 2 for each of [a] to [j],
    1 for [k]. *)
Definition usageEleven : gmap string number :=
  <["k" := of_Z 1]>
    (list_to_map ((λ id, (id, of_Z 2))
                    <$> ["a"; "b"; "c"; "d"; "e"; "f"; "g"; "h"; "i"; "j"])).

(** [twoRefs] with its two buttons swapped. *)
Definition twoRefsSwapped : StoredChart.t :=
  chartOf [linksButton [link true "r2"]; normalButton "r1"].

End MoreSamples.

(** ** Storage as it really is: JSON values

    [JSON.parse] returns whatever the stored text denotes, and the casts of
    lines 55 and 58 check nothing.  This part models the effect on arbitrary
    parsed values: the conversions [Number] applies to an entry that is not a
    number, the property reads, and the places where the [try] block throws.
    The typed reading above is what this one gives on values of the declared
    shapes. *)

Module Json.
Import JS.

(** What [JSON.parse] can return.  The members of an object are listed as the
    text has them; of a repeated key the last member counts. *)
#[warnings="-register-all"]
Inductive value : Type :=
  | Null
  | Bool (b : bool)
  | Num (n : number)
  | Str (s : string)
  | Arr (items : list value)
  | Obj (members : list (string * value)).

(** The own property [key] of an object with these members. *)
Fixpoint own (members : list (string * value)) (key : string) : option value :=
  match members with
  | [] => None
  | (k, v) :: members =>
      match own members key with
      | Some v' => Some v'
      | None => if bool_decide (k = key) then Some v else None
      end
  end.

(** Strings as the bytes of their UTF-8 encoding. *)
Definition bytes (s : string) : list N :=
  Ascii.N_of_ascii <$> String.list_ascii_of_string s.

Definition text (l : list N) : string :=
  String.string_of_list_ascii (Ascii.ascii_of_N <$> l).

(** *** Rounding to a double

    [round64 neg a d] is the double nearest to [a / d] (ties to even), with
    the sign [neg]: 53 bits of precision, exponents from -1022 (below it the
    spacing stays [2^-1074]) to 1023 (above it the result is infinite). *)
Definition ofQ (p d : Z) : number :=
  let q := Qred (p # Z.to_pos d) in
  if bool_decide (Qden q = 1%positive) then of_Z (Qnum q) else Fin (Q2Qc q).

Definition floorLog2 (a d : Z) : Z :=
  let k := (Z.log2 a - Z.log2 d)%Z in
  if (if (0 <=? k)%Z then (d * 2 ^ k <=? a)%Z else (d <=? a * 2 ^ (- k))%Z)
  then k else (k - 1)%Z.

Definition round64 (neg : bool) (a d : Z) : number :=
  if (a =? 0)%Z then zero else
  let e := floorLog2 a d in
  let u := (Z.max e (-1022) - 52)%Z in
  let num := if (0 <=? u)%Z then a else (a * 2 ^ (- u))%Z in
  let den := if (0 <=? u)%Z then (d * 2 ^ u)%Z else d in
  let m := (num / den)%Z in
  let r := (num mod den)%Z in
  let m := if (den <? 2 * r)%Z || ((2 * r =? den)%Z && Z.odd m)
           then (m + 1)%Z else m in
  let m := if neg then (- m)%Z else m in
  if (0 <=? u)%Z then
    if (2 ^ 1024 <=? Z.abs m * 2 ^ u)%Z
    then (if neg then NegInf else PosInf)
    else of_Z (m * 2 ^ u)
  else ofQ m (2 ^ (- u)).

(** *** [StringToNumber]

    The grammar [StringNumericLiteral]: white space on both sides, then
    nothing (the value is 0), or a decimal literal with optional sign,
    fraction and exponent, or [Infinity] with optional sign, or an unsigned
    hexadecimal, octal or binary integer.  Anything else is [NaN]. *)

(** The one-byte white space and line terminator characters, and the
    three-byte ones (U+1680, U+2000 to U+200A, U+2028, U+2029, U+202F,
    U+205F, U+3000, U+FEFF); the only two-byte one is U+00A0. *)
Definition narrow (c : N) : bool :=
  bool_decide (c ∈ [9; 10; 11; 12; 13; 32]%N).

Definition wide (c c1 c2 : N) : bool :=
  bool_decide
    ((c = 225 ∧ c1 = 154 ∧ c2 = 128)
     ∨ (c = 226 ∧ c1 = 128
        ∧ ((128 ≤ c2 ∧ c2 ≤ 138) ∨ c2 ∈ [168; 169; 175]))
     ∨ (c = 226 ∧ c1 = 129 ∧ c2 = 159)
     ∨ (c = 227 ∧ c1 = 128 ∧ c2 = 128)
     ∨ (c = 239 ∧ c1 = 187 ∧ c2 = 191))%N.

(** One white space character at the head of [l]. *)
Definition whiteSpace (l : list N) : option (list N) :=
  match l with
  | c :: r =>
      if narrow c then Some r else
      match r with
      | c1 :: r1 =>
          if bool_decide (c = 194 ∧ c1 = 160)%N then Some r1 else
          match r1 with
          | c2 :: r2 => if wide c c1 c2 then Some r2 else None
          | [] => None
          end
      | [] => None
      end
  | [] => None
  end.

(** The same at the end of a string, read backwards. *)
Definition whiteSpaceRev (l : list N) : option (list N) :=
  match l with
  | c :: r =>
      if narrow c then Some r else
      match r with
      | c1 :: r1 =>
          if bool_decide (c1 = 194 ∧ c = 160)%N then Some r1 else
          match r1 with
          | c2 :: r2 => if wide c2 c1 c then Some r2 else None
          | [] => None
          end
      | [] => None
      end
  | [] => None
  end.

Fixpoint strip (one : list N → option (list N)) (fuel : nat) (l : list N)
    : list N :=
  match fuel with
  | O => l
  | S fuel =>
      match one l with
      | Some r => strip one fuel r
      | None => l
      end
  end.

Definition trim (l : list N) : list N :=
  let l := strip whiteSpace (length l) l in
  reverse (strip whiteSpaceRev (length l) (reverse l)).

Definition digit (base : Z) (c : N) : option Z :=
  let c := Z.of_N c in
  let v := if (48 <=? c)%Z && (c <=? 57)%Z then Some (c - 48)%Z
           else if (97 <=? c)%Z && (c <=? 102)%Z then Some (c - 87)%Z
           else if (65 <=? c)%Z && (c <=? 70)%Z then Some (c - 55)%Z
           else None in
  match v with
  | Some v => if (v <? base)%Z then Some v else None
  | None => None
  end.

(** The longest run of digits at the head of [l]: its value, its length and
    what follows it. *)
Fixpoint digits (base acc : Z) (n : nat) (l : list N) : Z * nat * list N :=
  match l with
  | c :: r =>
      match digit base c with
      | Some v => digits base (acc * base + v)%Z (S n) r
      | None => (acc, n, l)
      end
  | [] => (acc, n, [])
  end.

Definition signed (l : list N) : bool * list N :=
  match l with
  | c :: r =>
      if bool_decide (c = 43%N) then (false, r)
      else if bool_decide (c = 45%N) then (true, r)
      else (false, l)
  | [] => (false, l)
  end.

Definition scaled (neg : bool) (mantissa exponent : Z) : number :=
  if (0 <=? exponent)%Z then round64 neg (mantissa * 10 ^ exponent) 1
  else round64 neg mantissa (10 ^ (- exponent)).

Definition decimalLiteral (l : list N) : number :=
  let '(neg, l) := signed l in
  if bool_decide (l = bytes "Infinity") then (if neg then NegInf else PosInf) else
  let '(int, ni, l) := digits 10 0 0 l in
  let '(dot, l) :=
    match l with
    | c :: r => if bool_decide (c = 46%N) then (true, r) else (false, l)
    | [] => (false, l)
    end in
  let '(frac, nf, l) := if dot : bool then digits 10 0 0 l else (0%Z, O, l) in
  if bool_decide (ni = O ∧ nf = O) then NaN else
  let mantissa := (int * 10 ^ Z.of_nat nf + frac)%Z in
  match l with
  | [] => scaled neg mantissa (- Z.of_nat nf)
  | c :: r =>
      if bool_decide (c = 101 ∨ c = 69)%N then
        let '(eneg, r) := signed r in
        let '(ex, ne, r) := digits 10 0 0 r in
        if bool_decide (ne ≠ O ∧ r = []) then
          scaled neg mantissa ((if eneg then - ex else ex) - Z.of_nat nf)
        else NaN
      else NaN
  end.

Definition prefixedLiteral (l : list N) : option number :=
  match l with
  | c0 :: c1 :: r =>
      if bool_decide (c0 = 48%N) then
        let base :=
          if bool_decide (c1 = 120 ∨ c1 = 88)%N then Some 16%Z
          else if bool_decide (c1 = 111 ∨ c1 = 79)%N then Some 8%Z
          else if bool_decide (c1 = 98 ∨ c1 = 66)%N then Some 2%Z
          else None in
        match base with
        | Some base =>
            let '(v, n, r) := digits base 0 0 r in
            Some (if bool_decide (n ≠ O ∧ r = []) then round64 false v 1 else NaN)
        | None => None
        end
      else None
  | _ => None
  end.

Definition StringToNumber (s : string) : number :=
  let l := trim (bytes s) in
  match l with
  | [] => zero
  | _ => default (decimalLiteral l) (prefixedLiteral l)
  end.

(** *** [Number(v)] on a parsed value

    An object is converted through its [valueOf] and [toString]; for the
    plain objects and arrays of JSON that is ["[object Object]"], respectively
    the elements joined by commas, then [StringToNumber].  A member named
    [toString] shadows the inherited method with something that cannot be
    called, and the conversion throws a [TypeError]; so does the conversion
    of an array that holds such an object, at any depth of arrays. *)
Fixpoint throws (v : value) : bool :=
  match v with
  | Obj members => bool_decide (is_Some (own members "toString"))
  | Arr items => existsb throws items
  | _ => false
  end.

(** The number [v] converts to when nothing throws.  [joined] says that [v]
    is the single element of an array, where it is first made a string:
    [true] and [false] then read ["true"] and ["false"], not 1 and 0; a
    number goes through its own decimal form and comes back as it was; an
    array of two or more elements has a comma in its string. *)
Fixpoint toNum (joined : bool) (v : value) : number :=
  match v with
  | Null => zero
  | Bool b => if joined then NaN else if b then of_Z 1 else zero
  | Num n => n
  | Str s => StringToNumber s
  | Arr items =>
      match items with
      | [] => zero
      | [item] => toNum true item
      | _ => NaN
      end
  | Obj _ => NaN
  end.

(** [Number(v)]; [v = None] is [undefined]; the result [None] is a thrown
    [TypeError]. *)
Definition ToNumber (v : option value) : option number :=
  match v with
  | None => Some NaN
  | Some v => if throws v then None else Some (toNum false v)
  end.

(** *** Property reads *)

(** An array index in canonical form: decimal digits without leading zero. *)
Definition index (key : string) : option nat :=
  match bytes key with
  | [] => None
  | c :: r =>
      let '(v, _, rest) := digits 10 0 0 (c :: r) in
      if bool_decide (rest = [] ∧ (c ≠ 48%N ∨ r = [])) then Some (Z.to_nat v)
      else None
  end.

(** The UTF-16 code units of a string, each given by the bytes of its
    character; the two halves of a character outside the basic plane have no
    bytes of their own and are [None]. *)
Fixpoint units (fuel : nat) (l : list N) : list (option (list N)) :=
  match fuel, l with
  | S fuel, c :: r =>
      if (c <? 192)%N then Some [c] :: units fuel r
      else if (c <? 224)%N then Some (c :: take 1 r) :: units fuel (drop 1 r)
      else if (c <? 240)%N then Some (c :: take 2 r) :: units fuel (drop 2 r)
      else None :: None :: units fuel (drop 3 r)
  | _, _ => []
  end.

(** [v[key]] where only own and indexed properties matter.  The effect reads
    [ranges], [id] and [name], which no prototype has, and the entry of the
    table, of which it keeps [Number(entry) || 0]: an inherited member is a
    function or a prototype object, and for each of them that is [0], as it
    is for [undefined]; so is it for one half of a character outside the
    basic plane, which is a string that is no number.  These read as
    [undefined] here.  The outer [None] is the [TypeError] of a read on
    [null]. *)
Definition get (v : value) (key : string) : option (option value) :=
  match v with
  | Null => None
  | Obj members => Some (own members key)
  | Arr items =>
      Some (if bool_decide (key = "length")
            then Some (Num (of_Z (Z.of_nat (length items))))
            else i ← index key; items !! i)
  | Str s =>
      let us := units (String.length s) (bytes s) in
      Some (if bool_decide (key = "length")
            then Some (Num (of_Z (Z.of_nat (length us))))
            else i ← index key; u ← us !! i; b ← u; Some (Str (text b)))
  | Bool _ | Num _ => Some None
  end.

End Json.

(** ** The effect on parsed storage *)

Module Raw.
Import JS Stats Json.

(** What [rangeDetailsMap] holds for an id, and a [ProcessedStat], when the
    names are whatever the catalog has under [name]; [None] is
    [undefined]. *)
Module Names.
Record t : Type := { folderName : option value; rangeName : option value }.
End Names.

Module Stat.
Record t : Type :=
  { id : string;
    folderName : option value;
    rangeName : option value;
    count : number }.
End Stat.

(** A loop body that may throw, run over a list in order. *)
Fixpoint foldM {S A : Type} (f : S → A → option S) (s : S) (l : list A)
    : option S :=
  match l with
  | [] => Some s
  | x :: l => s ← f s x; foldM f s l
  end.

(** [v.forEach(f)]: only an array has a [forEach] that can be called; on
    [undefined] ([None]) the read itself throws. *)
Definition forEach {S : Type} (v : option value)
    (f : S → value → option S) (s : S) : option S :=
  match v with
  | Some (Arr items) => foldM f s items
  | _ => None
  end.

(** Step 2 (lines 61-66).  [range.id] throws on a [null] range and
    [folder.ranges] on a [null] folder.  [Map.get] is only ever called with a
    string, which no key of another type equals, so a [set] whose key is not
    a string is left out. *)
Definition setRange (folder : value) (m : gmap string Names.t) (range : value)
    : option (gmap string Names.t) :=
  id ← get range "id";
  folderName ← get folder "name";
  rangeName ← get range "name";
  Some match id with
       | Some (Str id) =>
           <[id := {| Names.folderName := folderName;
                      Names.rangeName := rangeName |}]> m
       | _ => m
       end.

Definition setFolder (m : gmap string Names.t) (folder : value)
    : option (gmap string Names.t) :=
  ranges ← get folder "ranges";
  forEach ranges (setRange folder) m.

Definition rangeDetailsMap (allFolders : value) : option (gmap string Names.t) :=
  forEach (Some allFolders) setFolder ∅.

(** The catalogs on which step 2 runs to its end: an array of folders, none
    of them [null], each with an array under [ranges] that holds no
    [null]. *)
Definition isNull (v : value) : bool :=
  match v with
  | Null => true
  | _ => false
  end.

Definition scannableFolder (folder : value) : bool :=
  match get folder "ranges" with
  | Some (Some (Arr ranges)) => forallb (λ range, negb (isNull range)) ranges
  | _ => false
  end.

Definition scannable (allFolders : value) : bool :=
  match allFolders with
  | Arr folders => forallb scannableFolder folders
  | _ => false
  end.

(** The ranges step 2 visits, each with its folder, in the order of the
    visits. *)
Definition rangesOf (folder : value) : list value :=
  match get folder "ranges" with
  | Some (Some (Arr ranges)) => ranges
  | _ => []
  end.

Definition scanned (allFolders : value) : list (value * value) :=
  match allFolders with
  | Arr folders =>
      folder ← folders; (λ range, (folder, range)) <$> rangesOf folder
  | _ => []
  end.

(** The key a visited range is stored under, when it is a string, and the
    names stored with it. *)
Definition idOf (range : value) : option string :=
  match get range "id" with
  | Some (Some (Str id)) => Some id
  | _ => None
  end.

Definition namesOf (visit : value * value) : Names.t :=
  {| Names.folderName := default None (get visit.1 "name");
     Names.rangeName := default None (get visit.2 "name") |}.

(** The names of the last visit to a range stored under [rangeId]. *)
Definition lastSeen (rangeId : string) (visits : list (value * value))
    : option Names.t :=
  last (namesOf <$> filter (λ visit, idOf visit.2 = Some rangeId) visits).

(** Step 4 (lines 84-93).  [allStats[rangeId]] throws when [allStats] is
    [null], and [Number] may throw. *)
Definition countOf (allStats : value) (rangeId : string) : option number :=
  v ← get allStats rangeId;
  n ← ToNumber v;
  Some (lor n zero).

Definition processStat (allStats : value) (rangeDetailsMap : gmap string Names.t)
    (rangeId : string) : option Stat.t :=
  count ← countOf allStats rangeId;
  let details := rangeDetailsMap !! rangeId in
  Some {| Stat.id := rangeId;
          Stat.folderName :=
            match details with
            | Some d => Names.folderName d
            | None => Some (Str deletedFolder)
            end;
          Stat.rangeName :=
            match details with
            | Some d => Names.rangeName d
            | None => Some (Str rangeNotFound)
            end;
          Stat.count := count |}.

Definition processedStats (chart : StoredChart.t) (allFolders allStats : value)
    : option (list Stat.t) :=
  rangeDetailsMap ← rangeDetailsMap allFolders;
  mapM (processStat allStats rangeDetailsMap)
       (Set_.Array_from (chartRangeIds chart)).

(** Step 5 (lines 96-98). *)
Definition byCountDesc (a b : Stat.t) : number :=
  sub (Stat.count b) (Stat.count a).

Definition topStats (chart : StoredChart.t) (allFolders allStats : value)
    : option (list Stat.t) :=
  processedStats ← processedStats chart allFolders allStats;
  Some (slice0 10 (sort byCountDesc processedStats)).

(** An item of [localStorage] (lines 54-58): [Missing] is [null] or the
    empty string, [Unparsable] a text on which [JSON.parse] throws,
    [Parsed v] a text that denotes [v]. *)
Inductive Item : Type :=
  | Missing
  | Unparsable
  | Parsed (v : value).

Record LocalStorage : Type :=
  { training_statistics : Item;
    poker_ranges_folders : Item }.

Definition parseOr (item : Item) (dflt : value) : option value :=
  match item with
  | Missing => Some dflt
  | Unparsable => None
  | Parsed v => Some v
  end.

(** The [try] block (lines 53-100); [None] when anything in it throws. *)
Definition tryBlock (chart : StoredChart.t) (storage : LocalStorage)
    : option (list Stat.t) :=
  allStats ← parseOr (training_statistics storage) (Obj []);
  allFolders ← parseOr (poker_ranges_folders storage) (Arr []);
  topStats chart allFolders allStats.

Module State.
Record t : Type := { stats : list Stat.t; isLoading : bool }.
Definition initial : t := {| stats := []; isLoading := true |}.
Definition setStats (stats : list Stat.t) (st : t) : t :=
  {| stats := stats; isLoading := isLoading st |}.
Definition setIsLoading (isLoading : bool) (st : t) : t :=
  {| stats := stats st; isLoading := isLoading |}.
End State.

(** The effect (lines 46-107). *)
Definition useEffect (props : Dialog.Props) (storage : LocalStorage)
    (st : State.t) : State.t * list string :=
  match Dialog.chart props with
  | Some chart =>
      if Dialog.isOpen props then
        let st := State.setIsLoading true st in
        let '(st, console) :=
          match tryBlock chart storage with
          | Some topStats => (State.setStats topStats st, [])
          | None => (State.setStats [] st, [Dialog.errorMessage])
          end in
        (State.setIsLoading false st, console)
      else (st, [])
  | None => (st, [])
  end.

(** One [<li>] of the element the render function returns (lines 126-129):
    its [key], the two names among the children of its first [<span>],
    passed on as the entry has them, and the number in its second. *)
Module Row.
Record t : Type :=
  { key : string;
    folderName : option value;
    rangeName : option value;
    count : number }.
End Row.

Definition row (stat : Stat.t) : Row.t :=
  {| Row.key := Stat.id stat;
     Row.folderName := Stat.folderName stat;
     Row.rangeName := Stat.rangeName stat;
     Row.count := Stat.count stat |}.

Inductive Body : Type :=
  | Spinner
  | OrderedList (rows : list Row.t) (noData : bool)
  | NoLinkedRanges.

Definition shown (stats : list Stat.t) : list Stat.t :=
  filter (λ stat, gtb (Stat.count stat) zero = true) stats.

(** The body of the dialog (lines 119-142). *)
Definition body (st : State.t) : Body :=
  if State.isLoading st then Spinner
  else if bool_decide (0 < length (State.stats st))%nat then
    OrderedList (row <$> shown (State.stats st))
                (bool_decide (length (shown (State.stats st)) = 0%nat))
  else NoLinkedRanges.

(** *** Values of the declared shapes *)

Definition ofRange (range : Range.t) : value :=
  Obj [("id", Str (Range.id range)); ("name", Str (Range.name range))].

Definition ofFolder (folder : Folder.t) : value :=
  Obj [("id", Str (Folder.id folder)); ("name", Str (Folder.name folder));
       ("ranges", Arr (ofRange <$> Folder.ranges folder))].

Definition ofFolders (allFolders : list Folder.t) : value :=
  Arr (ofFolder <$> allFolders).

Definition ofStats (allStats : gmap string number) : value :=
  Obj ((λ entry, (entry.1, Num entry.2)) <$> map_to_list allStats).

Definition ofStat (stat : ProcessedStat.t) : Stat.t :=
  {| Stat.id := ProcessedStat.id stat;
     Stat.folderName := Some (Str (ProcessedStat.folderName stat));
     Stat.rangeName := Some (Str (ProcessedStat.rangeName stat));
     Stat.count := ProcessedStat.count stat |}.

Definition ofItem {A : Type} (encode : A → value) (item : Dialog.Item A) : Item :=
  match item with
  | Dialog.Absent => Missing
  | Dialog.Malformed => Unparsable
  | Dialog.Parsed a => Parsed (encode a)
  end.

Definition ofStorage (storage : Dialog.LocalStorage) : LocalStorage :=
  {| training_statistics := ofItem ofStats (Dialog.training_statistics storage);
     poker_ranges_folders := ofItem ofFolders (Dialog.poker_ranges_folders storage) |}.

Definition wrap (details : Details.t) : Names.t :=
  {| Names.folderName := Some (Str (Details.folderName details));
     Names.rangeName := Some (Str (Details.rangeName details)) |}.

Definition ofState (st : Dialog.State.t) : State.t :=
  {| State.stats := ofStat <$> Dialog.State.stats st;
     State.isLoading := Dialog.State.isLoading st |}.

(** The count and the id of an entry, without its names. *)
Definition erase (stat : Stat.t) : ProcessedStat.t :=
  {| ProcessedStat.id := Stat.id stat;
     ProcessedStat.folderName := "";
     ProcessedStat.rangeName := "";
     ProcessedStat.count := Stat.count stat |}.

End Raw.

(** ** Sample storage *)

Module RawSamples.
Import JS Stats Json Samples.

(** A table whose entries for [r1] to [r6] are a negative number, [true], a
    numeric string, a one-element array, [null] and a string that is no
    number. *)
Definition mixedTable : value :=
  Obj [("r1", Num (of_Z (-5))); ("r2", Bool true); ("r3", Str "7");
       ("r4", Arr [Num (of_Z 4)]); ("r5", Null); ("r6", Str "seven")].

(** A table with an entry that cannot be converted. *)
Definition brokenTable : value :=
  Obj [("r1", Num (of_Z 5)); ("r2", Obj [("toString", Num (of_Z 1))])].

(** A catalog whose only folder has no [ranges]. *)
Definition folderWithoutRanges : value :=
  Arr [Obj [("id", Str "f"); ("name", Str "F")]].

(** A folder that holds the id [r1] twice, the second time without a
    name. *)
Definition rangeA : value := Obj [("id", Str "r1"); ("name", Str "A")].
Definition rangeNameless : value := Obj [("id", Str "r1")].
Definition folderTwice : value :=
  Obj [("name", Str "F"); ("ranges", Arr [rangeA; rangeNameless])].

(** The entry for [r1] with the folder's name and no range name. *)
Definition halfNamed : Raw.Stat.t :=
  {| Raw.Stat.id := "r1";
     Raw.Stat.folderName := Some (Str "F");
     Raw.Stat.rangeName := None;
     Raw.Stat.count := zero |}.

(** An entry with the placeholder names. *)
Definition unnamed (id : string) (count : Z) : Raw.Stat.t :=
  {| Raw.Stat.id := id;
     Raw.Stat.folderName := Some (Str deletedFolder);
     Raw.Stat.rangeName := Some (Str rangeNotFound);
     Raw.Stat.count := of_Z count |}.

Definition sixRefs : StoredChart.t :=
  chartOf (normalButton <$> ["r1"; "r2"; "r3"; "r4"; "r5"; "r6"]).

Definition open (chart : StoredChart.t) : Dialog.Props :=
  {| Dialog.isOpen := true; Dialog.chart := Some chart |}.

Definition storage (allStats allFolders : Raw.Item) : Raw.LocalStorage :=
  {| Raw.training_statistics := allStats; Raw.poker_ranges_folders := allFolders |}.

End RawSamples.

(** ** Facts about the JavaScript fragment *)

Section number_facts.
Import JS.

Lemma truthy_not_NaN n : truthy n = true → n ≠ NaN.
Proof. by destruct n. Qed.

Lemma lor_zero_not_NaN n : lor n zero ≠ NaN.
Proof.
  unfold lor. destruct (truthy n) eqn:Hn; [by apply truthy_not_NaN | done].
Qed.

Lemma falsy_cases n : truthy n = false → n = NaN ∨ n = zero.
Proof.
  destruct n as [| |q|]; simpl; try by auto.
  intros Hq. right. apply negb_false_iff, bool_decide_eq_true in Hq.
  by rewrite Hq.
Qed.

Lemma Qc_sub_pos (x y : Qc) : (Qc_of_Z 0 < y - x)%Qc ↔ (x < y)%Qc.
Proof. rewrite Z2Qc_inj_0. unfold Qcminus. symmetry. apply Qclt_minus_iff. Qed.

(** The comparison [sub b a > 0] on numbers other than [NaN] decides
    [a < b]; when it fails, [b <= a]. *)
Lemma sub_pos_lt a b :
  a ≠ NaN → b ≠ NaN → gtb (sub b a) zero = true → ltb a b = true.
Proof.
  destruct a as [| |x|], b as [| |y|]; simpl; try done.
  unfold gtb, zero, of_Z; simpl. intros _ _.
  rewrite !bool_decide_eq_true. apply Qc_sub_pos.
Qed.

Lemma sub_not_pos_le a b :
  a ≠ NaN → b ≠ NaN → gtb (sub b a) zero = false → leb b a = true.
Proof.
  destruct a as [| |x|], b as [| |y|]; simpl; try done.
  unfold gtb, zero, of_Z; simpl. intros _ _.
  rewrite bool_decide_eq_false, bool_decide_eq_true, Qc_sub_pos.
  apply Qcnot_lt_le.
Qed.

Lemma ltb_leb a b : ltb a b = true → leb a b = true.
Proof.
  destruct a as [| |x|], b as [| |y|]; simpl; try done.
  rewrite !bool_decide_eq_true. apply Qclt_le_weak.
Qed.

Lemma leb_trans a b c : leb a b = true → leb b c = true → leb a c = true.
Proof.
  destruct a as [| |x|], b as [| |y|], c as [| |z|]; simpl; try done.
  rewrite !bool_decide_eq_true. apply Qcle_trans.
Qed.

Lemma sub_self_not_pos a : gtb (sub a a) zero = false.
Proof.
  destruct a as [| |x|]; try done.
  unfold gtb, zero, of_Z; simpl.
  rewrite bool_decide_eq_false, Qc_sub_pos. apply (irreflexivity Qclt).
Qed.

End number_facts.

Section set_facts.
Import JS Refs.

Lemma elem_of_add x y (s : list string) : y ∈ Set_.add x s ↔ y = x ∨ y ∈ s.
Proof.
  unfold Set_.add. case_bool_decide as Hx.
  - split; [by right | intros [->|]; done].
  - rewrite elem_of_app, list_elem_of_singleton. tauto.
Qed.

Lemma NoDup_add x (s : list string) : NoDup s → NoDup (Set_.add x s).
Proof.
  intros Hs. unfold Set_.add. case_bool_decide as Hx; [done|].
  apply NoDup_app. split_and!; [done | | apply NoDup_singleton].
  intros y Hy ->%list_elem_of_singleton. done.
Qed.

Lemma collect_app s refs1 refs2 :
  collect s (refs1 ++ refs2) = collect (collect s refs1) refs2.
Proof. apply foldl_app. Qed.

Lemma elem_of_collect refs : ∀ s y, y ∈ collect s refs ↔ y ∈ s ∨ y ∈ refs.
Proof.
  induction refs as [|x refs IH]; intros s y; simpl.
  - rewrite elem_of_nil. tauto.
  - unfold collect in *. simpl. rewrite IH, elem_of_add, elem_of_cons. tauto.
Qed.

Lemma NoDup_collect refs : ∀ s, NoDup s → NoDup (collect s refs).
Proof.
  induction refs as [|x refs IH]; intros s Hs; [done|].
  apply IH. by apply NoDup_add.
Qed.

(** A list without repeats that has the members of [refs] is as long as
    [refs] has distinct members. *)
Lemma length_distinct (l refs : list string) :
  NoDup l → (∀ x, x ∈ l ↔ x ∈ refs) →
  length l = size (list_to_set refs : gset string).
Proof.
  intros Hl Hm. rewrite <-(size_list_to_set (C:=gset string) l) by done.
  f_equal. apply set_eq. intros x. rewrite !elem_of_list_to_set. apply Hm.
Qed.

End set_facts.

Section sort_facts.
Import JS.
Context {A : Type} (comparefn : A → A → number).

Lemma insert_Permutation x l : insert comparefn x l ≡ₚ x :: l.
Proof.
  induction l as [|y l IH]; simpl; [done|].
  destruct (gtb (comparefn x y) zero); [|done].
  rewrite IH. apply Permutation_swap.
Qed.

Lemma sort_Permutation l : sort comparefn l ≡ₚ l.
Proof.
  induction l as [|x l IH]; simpl; [done|].
  rewrite insert_Permutation. by f_equiv.
Qed.

Lemma sort_length l : length (sort comparefn l) = length l.
Proof. by rewrite sort_Permutation. Qed.

(** Sortedness, for a comparator that is consistent with a relation [R] on
    the elements that satisfy [P]. *)
Context (R : relation A) (P : A → Prop).
Context (Hafter : ∀ x y, P x → P y → gtb (comparefn x y) zero = true → R y x).
Context (Hbefore : ∀ x y, P x → P y → gtb (comparefn x y) zero = false → R x y).

Lemma HdRel_insert x y l :
  R y x → HdRel R y l → HdRel R y (insert comparefn x l).
Proof.
  intros Hyx Hl. destruct l as [|z l]; simpl; [by constructor|].
  destruct (gtb (comparefn x z) zero); constructor; [|done]. by inversion Hl.
Qed.

Lemma Sorted_insert x l :
  P x → Forall P l → Sorted R l → Sorted R (insert comparefn x l).
Proof.
  intros Hx. induction l as [|y l IH]; intros HP Hl; simpl.
  - by repeat constructor.
  - apply Forall_cons in HP as [Hy HP]. apply Sorted_inv in Hl as [Hl Hhd].
    destruct (gtb (comparefn x y) zero) eqn:Hc.
    + constructor; [by apply IH|]. apply HdRel_insert; eauto.
    + constructor; [by constructor|]. constructor. eauto.
Qed.

Lemma Sorted_sort l : Forall P l → Sorted R (sort comparefn l).
Proof.
  induction l as [|x l IH]; intros HP; simpl; [constructor|].
  apply Forall_cons in HP as [Hx HP]. apply Sorted_insert; [done| |by apply IH].
  by rewrite sort_Permutation.
Qed.

(** Stability: elements that the comparator never orders one behind the
    other keep their relative order. *)
Context (tied : A → Prop) `{!∀ x, Decision (tied x)}.
Context (Htied : ∀ x y, tied x → tied y → gtb (comparefn x y) zero = false).

Lemma filter_insert x l :
  filter tied (insert comparefn x l) = filter tied (x :: l).
Proof.
  induction l as [|y l IH]; simpl; [done|].
  destruct (gtb (comparefn x y) zero) eqn:Hc; [|done].
  rewrite (filter_cons _ y), IH, !(filter_cons _ x), (filter_cons _ y).
  destruct (decide (tied x)) as [Hx|Hx]; [|done].
  destruct (decide (tied y)) as [Hy|Hy]; [|done].
  rewrite Htied in Hc by done. done.
Qed.

Lemma filter_sort l : filter tied (sort comparefn l) = filter tied l.
Proof.
  induction l as [|x l IH]; simpl; [done|].
  by rewrite filter_insert, !(filter_cons _ x), IH.
Qed.

End sort_facts.

Section sorted_facts.
Context {A : Type} (R : relation A).

Lemma Sorted_take n l : Sorted R l → Sorted R (take n l).
Proof.
  revert n. induction l as [|x l IH]; intros [|n] Hl; simpl; try constructor.
  - apply IH. by apply Sorted_inv in Hl as [? _].
  - apply Sorted_inv in Hl as [_ Hhd].
    destruct l as [|y l], n as [|n]; simpl; constructor. by inversion Hhd.
Qed.

Lemma Sorted_adjacent l i a b :
  Sorted R l → l !! i = Some a → l !! S i = Some b → R a b.
Proof.
  intros Hl. revert i. induction Hl as [|x l Hl IH Hhd]; intros i Ha Hb; [done|].
  destruct i as [|i]; simpl in *.
  - destruct l as [|y l]; simplify_eq/=. by inversion Hhd.
  - eauto.
Qed.

End sorted_facts.

(** ** Facts about the steps of the effect *)

Section collection_facts.
Import JS Stats Refs.

Lemma addLinkedItem_collect s button :
  addLinkedItem s button = collect s (ofLinkedItem button).
Proof.
  unfold addLinkedItem, ofLinkedItem.
  destruct (isRangeLink button); [|done].
  by destruct (ChartButton.linkedItem button).
Qed.

Lemma addLinkBtn_collect s linkBtn :
  addLinkBtn s linkBtn = collect s (ofLinkBtn linkBtn).
Proof.
  unfold addLinkBtn, ofLinkBtn.
  destruct (LinkButton.enabled linkBtn && _); [|done].
  by destruct (LinkButton.targetRangeId linkBtn).
Qed.

Lemma foldl_addLinkBtn_collect linkButtons :
  ∀ s, foldl addLinkBtn s linkButtons = collect s (flat_map ofLinkBtn linkButtons).
Proof.
  induction linkButtons as [|linkBtn linkButtons IH]; intros s; simpl; [done|].
  by rewrite IH, collect_app, addLinkBtn_collect.
Qed.

Lemma addLinkButtons_collect s button :
  addLinkButtons s button = collect s (ofLinkButtons button).
Proof.
  unfold addLinkButtons, ofLinkButtons.
  destruct (ChartButton.linkButtons button); [|done].
  apply foldl_addLinkBtn_collect.
Qed.

Lemma addButton_collect s button :
  addButton s button = collect s (ofButton button).
Proof.
  unfold addButton, ofButton.
  by rewrite collect_app, addLinkButtons_collect, addLinkedItem_collect.
Qed.

Lemma foldl_addButton_collect buttons :
  ∀ s, foldl addButton s buttons = collect s (flat_map ofButton buttons).
Proof.
  induction buttons as [|button buttons IH]; intros s; simpl; [done|].
  by rewrite IH, collect_app, addButton_collect.
Qed.

Lemma chartRangeIds_collect chart :
  chartRangeIds chart = collect [] (ofChart chart).
Proof. apply foldl_addButton_collect. Qed.

Lemma NoDup_chartRangeIds chart : NoDup (chartRangeIds chart).
Proof. rewrite chartRangeIds_collect. apply NoDup_collect, NoDup_nil_2. Qed.

Lemma elem_of_chartRangeIds chart x :
  x ∈ chartRangeIds chart ↔ x ∈ ofChart chart.
Proof.
  rewrite chartRangeIds_collect, elem_of_collect, elem_of_nil. tauto.
Qed.

Lemma length_chartRangeIds chart :
  length (chartRangeIds chart) = size (list_to_set (ofChart chart) : gset string).
Proof.
  apply length_distinct; [apply NoDup_chartRangeIds|].
  intros x. apply elem_of_chartRangeIds.
Qed.

(** What a reference is, read off the two guards. *)
Lemma truthy_str_Some x : truthy_str (Some x) = true ↔ x ≠ "".
Proof. simpl. by rewrite negb_true_iff, bool_decide_eq_false. Qed.

Lemma isRangeLink_true button :
  isRangeLink button = true ↔
    ChartButton.type button = "normal" ∧
    ∃ x, ChartButton.linkedItem button = Some x ∧
         x ≠ "" ∧ x ≠ "label-only" ∧ x ≠ "exit".
Proof.
  unfold isRangeLink.
  rewrite !andb_true_iff, !negb_true_iff, !bool_decide_eq_false, bool_decide_eq_true.
  destruct (ChartButton.linkedItem button) as [item|].
  - rewrite truthy_str_Some. split.
    + intros [[[Htype Hne] Hlabel] Hexit]. split; [done|].
      exists item. repeat split; congruence.
    + intros (Htype & x & [= ->] & Hne & Hlabel & Hexit).
      repeat split; congruence.
  - simpl. split; [intros [[[_ ?] _] _]; done | intros (_ & x & ? & _); done].
Qed.

Lemma elem_of_ofLinkedItem button x :
  x ∈ ofLinkedItem button ↔
    ChartButton.type button = "normal" ∧ ChartButton.linkedItem button = Some x ∧
    x ≠ "" ∧ x ≠ "label-only" ∧ x ≠ "exit".
Proof.
  unfold ofLinkedItem. destruct (isRangeLink button) eqn:Hlink.
  - apply isRangeLink_true in Hlink as (Htype & item & -> & Hitem). simpl.
    rewrite list_elem_of_singleton. split.
    + by intros ->.
    + by intros (_ & [= ->] & _).
  - rewrite elem_of_nil. split; [done|]. intros (Htype & Hitem & Hx).
    assert (isRangeLink button = true) by (apply isRangeLink_true; eauto).
    congruence.
Qed.

Lemma elem_of_ofLinkBtn linkBtn x :
  x ∈ ofLinkBtn linkBtn ↔
    LinkButton.enabled linkBtn = true ∧
    LinkButton.targetRangeId linkBtn = Some x ∧ x ≠ "".
Proof.
  unfold ofLinkBtn.
  destruct (LinkButton.enabled linkBtn); simpl;
    [|rewrite elem_of_nil; by intuition].
  destruct (LinkButton.targetRangeId linkBtn) as [target|]; simpl;
    [|rewrite elem_of_nil; by intuition].
  case_bool_decide as Hempty; simpl.
  - rewrite elem_of_nil. split; [done|]. intros (_ & [= ->] & Hne). done.
  - rewrite list_elem_of_singleton. split.
    + by intros ->.
    + by intros (_ & [= ->] & _).
Qed.

Lemma ofLinkedItem_without button : ofLinkedItem (withoutLinkedItem button) = [].
Proof.
  unfold ofLinkedItem, isRangeLink. simpl. by rewrite andb_false_r.
Qed.

Lemma ofLinkBtn_disabled linkBtn :
  LinkButton.enabled linkBtn = false → ofLinkBtn linkBtn = [].
Proof. intros Hoff. unfold ofLinkBtn. by rewrite Hoff. Qed.

Lemma flat_map_ofLinkBtn_enabled linkButtons :
  flat_map ofLinkBtn
    (filter (λ linkBtn, LinkButton.enabled linkBtn = true) linkButtons)
  = flat_map ofLinkBtn linkButtons.
Proof.
  induction linkButtons as [|linkBtn linkButtons IH]; [done|].
  rewrite filter_cons. destruct (LinkButton.enabled linkBtn) eqn:Hon.
  - rewrite decide_True by done. simpl. by rewrite IH.
  - rewrite decide_False by done. simpl.
    by rewrite IH, ofLinkBtn_disabled.
Qed.

Lemma ofButton_withoutDisabled button :
  ofButton (withoutDisabled button) = ofButton button.
Proof.
  unfold ofButton. f_equal. unfold ofLinkButtons. simpl.
  destruct (ChartButton.linkButtons button) as [linkButtons|]; [|done].
  apply flat_map_ofLinkBtn_enabled.
Qed.

End collection_facts.

Section catalog_facts.
Import JS Stats Refs.

Lemma setFolder_setAll m folder : setFolder m folder = setAll m (ofFolder folder).
Proof.
  unfold setFolder, ofFolder. generalize (Folder.ranges folder) as ranges.
  intros ranges. revert m.
  induction ranges as [|range ranges IH]; intros m; simpl; [done|]. apply IH.
Qed.

Lemma rangeDetailsMap_setAll allFolders :
  rangeDetailsMap allFolders = setAll ∅ (ofCatalog allFolders).
Proof.
  unfold rangeDetailsMap, ofCatalog. generalize (∅ : gmap string Details.t) as m.
  induction allFolders as [|folder allFolders IH]; intros m; simpl; [done|].
  unfold setAll. rewrite foldl_app. fold (setAll m (ofFolder folder)).
  by rewrite IH, setFolder_setAll.
Qed.

Lemma setAll_absent entries :
  ∀ m k, k ∉ entries.*1 → setAll m entries !! k = m !! k.
Proof.
  induction entries as [|[k' v'] entries IH]; intros m k Hk; simpl; [done|].
  rewrite fmap_cons, not_elem_of_cons in Hk. destruct Hk as [Hne Hk].
  unfold setAll in *. simpl. rewrite IH by done. by rewrite lookup_insert_ne.
Qed.

Lemma setAll_last m pre k v post :
  k ∉ post.*1 → setAll m (pre ++ (k, v) :: post) !! k = Some v.
Proof.
  intros Hk. unfold setAll. rewrite foldl_app. simpl.
  fold (setAll (<[k:=v]> (foldl (λ m entry, <[entry.1:=entry.2]> m) m pre)) post).
  rewrite setAll_absent by done. apply lookup_insert_eq.
Qed.

Lemma elem_of_ofCatalog allFolders k v :
  (k, v) ∈ ofCatalog allFolders ↔
    ∃ folder range, folder ∈ allFolders ∧ range ∈ Folder.ranges folder ∧
      k = Range.id range ∧
      v = {| Details.folderName := Folder.name folder;
             Details.rangeName := Range.name range |}.
Proof.
  unfold ofCatalog, ofFolder. rewrite list_elem_of_In, in_flat_map. split.
  - intros (folder & Hfolder & Hin). apply in_map_iff in Hin as (range & Heq & Hrange).
    exists folder, range. rewrite !list_elem_of_In. by simplify_eq.
  - intros (folder & range & Hfolder & Hrange & -> & ->).
    exists folder. rewrite <-list_elem_of_In. split; [done|].
    apply in_map_iff. exists range. by rewrite <-list_elem_of_In.
Qed.

Lemma rangeDetailsMap_absent allFolders rangeId :
  (∀ folder range, folder ∈ allFolders → range ∈ Folder.ranges folder →
     Range.id range ≠ rangeId) →
  rangeDetailsMap allFolders !! rangeId = None.
Proof.
  intros Habsent. rewrite rangeDetailsMap_setAll, setAll_absent; [done|].
  intros ([k v] & -> & Hin)%list_elem_of_fmap.
  apply elem_of_ofCatalog in Hin as (folder & range & Hfolder & Hrange & -> & _).
  by apply (Habsent folder range).
Qed.

End catalog_facts.

Section resolution_facts.
Import JS Stats Refs.

Lemma countOf_not_NaN allStats rangeId : countOf allStats rangeId ≠ NaN.
Proof. apply lor_zero_not_NaN. Qed.

Lemma countOf_absent (allStats : gmap string number) rangeId :
  allStats !! rangeId = None ∨ allStats !! rangeId = Some NaN →
  countOf allStats rangeId = zero.
Proof. unfold countOf. by intros [-> | ->]. Qed.

Lemma countOf_number (allStats : gmap string number) rangeId n :
  allStats !! rangeId = Some n → n ≠ NaN → countOf allStats rangeId = n.
Proof.
  intros Hget Hn. unfold countOf, lor. rewrite Hget. simpl.
  destruct (truthy n) eqn:Htruthy; [done|].
  by destruct (falsy_cases n Htruthy).
Qed.

Lemma processedStats_ids chart allFolders allStats :
  ProcessedStat.id <$> processedStats chart allFolders allStats
  = chartRangeIds chart.
Proof.
  unfold processedStats, Set_.Array_from.
  induction (chartRangeIds chart) as [|rangeId ids IH]; [done|].
  simpl. f_equal. apply IH.
Qed.

Lemma processedStats_length chart allFolders allStats :
  length (processedStats chart allFolders allStats) = length (chartRangeIds chart).
Proof. unfold processedStats. apply length_map. Qed.

Lemma elem_of_processedStats chart allFolders allStats stat :
  stat ∈ processedStats chart allFolders allStats ↔
    ∃ rangeId, rangeId ∈ chartRangeIds chart ∧
      stat = processStat allStats (rangeDetailsMap allFolders) rangeId.
Proof.
  unfold processedStats, Set_.Array_from. rewrite list_elem_of_fmap.
  split; intros (rangeId & ? & ?); by exists rangeId.
Qed.

Lemma processedStats_not_NaN chart allFolders allStats :
  Forall (λ stat, ProcessedStat.count stat ≠ NaN)
         (processedStats chart allFolders allStats).
Proof.
  apply Forall_forall. intros stat (rangeId & _ & ->)%elem_of_processedStats.
  apply countOf_not_NaN.
Qed.

Lemma entriesOf_absent rangeId (stats : list ProcessedStat.t) :
  rangeId ∉ ProcessedStat.id <$> stats → entriesOf rangeId stats = [].
Proof.
  unfold entriesOf. induction stats as [|stat stats IH]; [done|].
  rewrite fmap_cons, not_elem_of_cons. intros [Hne Hnot].
  rewrite filter_cons_False by congruence. by apply IH.
Qed.

Lemma entriesOf_once rangeId (stats : list ProcessedStat.t) :
  NoDup (ProcessedStat.id <$> stats) →
  rangeId ∈ ProcessedStat.id <$> stats →
  length (entriesOf rangeId stats) = 1%nat.
Proof.
  induction stats as [|stat stats IH]; [by intros _ ?%elem_of_nil|].
  rewrite fmap_cons, NoDup_cons, elem_of_cons. intros [Hnew Hnodup] Hin.
  unfold entriesOf. destruct (decide (ProcessedStat.id stat = rangeId)) as [Hid|Hid].
  - rewrite filter_cons_True by done. simpl. f_equal.
    fold (entriesOf rangeId stats). rewrite entriesOf_absent; [done|congruence].
  - rewrite filter_cons_False by done.
    destruct Hin as [Heq|Hin]; [congruence|]. by apply IH.
Qed.

End resolution_facts.

Section ranking_facts.
Import JS Stats Refs.

Lemma sortedStats_Permutation chart allFolders allStats :
  sortedStats chart allFolders allStats ≡ₚ processedStats chart allFolders allStats.
Proof. apply sort_Permutation. Qed.

Lemma sortedStats_Sorted chart allFolders allStats :
  Sorted descending (sortedStats chart allFolders allStats).
Proof.
  apply (Sorted_sort byCountDesc descending
           (λ stat, ProcessedStat.count stat ≠ NaN)).
  - intros x y Hx Hy Hgt. apply ltb_leb, sub_pos_lt; done.
  - intros x y Hx Hy Hgt. apply sub_not_pos_le; done.
  - apply processedStats_not_NaN.
Qed.

Lemma topStats_Sorted chart allFolders allStats :
  Sorted descending (topStats chart allFolders allStats).
Proof. apply Sorted_take, sortedStats_Sorted. Qed.

Lemma topStats_length chart allFolders allStats :
  length (topStats chart allFolders allStats)
  = 10 `min` length (chartRangeIds chart).
Proof.
  unfold topStats, slice0, sortedStats.
  by rewrite length_take, sort_length, processedStats_length.
Qed.

Lemma topStats_all chart allFolders allStats :
  (length (chartRangeIds chart) ≤ 10)%nat →
  topStats chart allFolders allStats = sortedStats chart allFolders allStats.
Proof.
  intros Hlen. unfold topStats, slice0. apply take_ge.
  unfold sortedStats. by rewrite sort_length, processedStats_length.
Qed.

Lemma topStats_sublist chart allFolders allStats stat :
  stat ∈ topStats chart allFolders allStats →
  stat ∈ processedStats chart allFolders allStats.
Proof.
  unfold topStats, slice0. intros Hin%subseteq_take.
  by rewrite <-sortedStats_Permutation.
Qed.

Lemma sortedStats_position chart allFolders allStats stat :
  stat ∈ processedStats chart allFolders allStats →
  ∃ i, sortedStats chart allFolders allStats !! i = Some stat ∧
       (i < length (chartRangeIds chart))%nat.
Proof.
  rewrite <-sortedStats_Permutation. intros [i Hi]%list_elem_of_lookup.
  exists i. split; [done|]. apply lookup_lt_Some in Hi.
  unfold sortedStats in Hi. by rewrite sort_length, processedStats_length in Hi.
Qed.

Lemma topStats_lookup chart allFolders allStats i :
  (i < 10)%nat →
  topStats chart allFolders allStats !! i
  = sortedStats chart allFolders allStats !! i.
Proof. apply lookup_take_lt. Qed.

Lemma displayed_positive stats stat :
  stat ∈ displayed stats ↔
    gtb (ProcessedStat.count stat) zero = true ∧ stat ∈ stats.
Proof. unfold displayed. by rewrite list_elem_of_filter. Qed.

End ranking_facts.

(** ** Facts about parsed storage *)

Section json_facts.
Import JS Stats Json.

Lemma own_None members key : own members key = None ↔ key ∉ members.*1.
Proof.
  induction members as [|[k v] members IH]; simpl.
  - split; [by intros _ ?%elem_of_nil | done].
  - rewrite not_elem_of_cons, <-IH. destruct (own members key).
    + split; [done | by intros [_ ?]].
    + case_bool_decide as Hkey.
      * split; [done|]. intros [Hne _]. by destruct Hne.
      * split; [|done]. intros _. split; [by intros ->|done].
Qed.

Lemma own_Some_NoDup members key v :
  NoDup members.*1 → own members key = Some v ↔ (key, v) ∈ members.
Proof.
  induction members as [|[k v'] members IH]; intros Hnodup.
  - split; [done | by intros ?%elem_of_nil].
  - rewrite fmap_cons in Hnodup. apply NoDup_cons in Hnodup as [Hk Hnodup].
    specialize (IH Hnodup). simpl. rewrite elem_of_cons.
    destruct (own members key) as [v''|] eqn:Hown.
    + split; [intros Heq; right; by apply IH|].
      intros [[= -> ->] | Hin]; [|by apply IH].
      apply own_None in Hk. simpl in Hk. congruence.
    + case_bool_decide as Hkey.
      * split; [intros [= <-]; left; by rewrite Hkey|].
        intros [[= _ ->] | Hin]; [done | by apply IH in Hin].
      * split; [done|].
        intros [[= -> _] | Hin]; [done | by apply IH in Hin].
Qed.

Lemma ToNumber_None v : ToNumber v = None ↔ ∃ v', v = Some v' ∧ throws v' = true.
Proof.
  destruct v as [v|]; simpl.
  - destruct (throws v) eqn:Hthrows.
    + split; [intros _; by exists v | done].
    + split; [done|]. intros (v' & [= <-] & Hv'). congruence.
  - split; [done | by intros (? & ? & _)].
Qed.

Lemma get_None v key : get v key = None ↔ v = Null.
Proof. by destruct v. Qed.

End json_facts.

Section raw_typed.
Import JS Stats Json Dialog.

Lemma own_ofStats (allStats : gmap string number) rangeId :
  own ((λ entry, (entry.1, Num entry.2)) <$> map_to_list allStats) rangeId
  = Num <$> allStats !! rangeId.
Proof.
  assert (NoDup ((λ entry : string * number, (entry.1, Num entry.2))
                   <$> map_to_list allStats).*1) as Hnodup.
  { rewrite <-list_fmap_compose.
    apply (NoDup_fmap_2_strong _); [|apply NoDup_map_to_list].
    intros [k1 n1] [k2 n2] Hin1%elem_of_map_to_list Hin2%elem_of_map_to_list.
    simpl. intros ->. congruence. }
  destruct (allStats !! rangeId) as [n|] eqn:Hget; simpl.
  - apply own_Some_NoDup; [done|].
    apply (list_elem_of_fmap_2' _ _ (rangeId, n)); [|done].
    by apply elem_of_map_to_list.
  - apply own_None. rewrite <-list_fmap_compose.
    intros ([k n] & -> & Hin%elem_of_map_to_list)%list_elem_of_fmap.
    simpl in Hget. congruence.
Qed.

Lemma countOf_ofStats (allStats : gmap string number) rangeId :
  Raw.countOf (Raw.ofStats allStats) rangeId
  = Some (Stats.countOf allStats rangeId).
Proof.
  unfold Raw.countOf, Raw.ofStats, Stats.countOf. simpl.
  rewrite own_ofStats. by destruct (allStats !! rangeId).
Qed.

Lemma foldM_foldl {S S' A A' : Type} (f : S → A → S) (f' : S' → A' → option S')
    (g : S → S') (h : A → A') l :
  (∀ s x, f' (g s) (h x) = Some (g (f s x))) →
  ∀ s, Raw.foldM f' (g s) (h <$> l) = Some (g (foldl f s l)).
Proof.
  intros Hstep. induction l as [|x l IH]; intros s; [done|].
  simpl. rewrite Hstep. simpl. apply IH.
Qed.

Lemma setRange_ofRange folder m range :
  Raw.setRange (Raw.ofFolder folder) (Raw.wrap <$> m) (Raw.ofRange range)
  = Some (Raw.wrap <$> Stats.setRange folder m range).
Proof. unfold Stats.setRange. by rewrite fmap_insert. Qed.

Lemma setFolder_ofFolder m folder :
  Raw.setFolder (Raw.wrap <$> m) (Raw.ofFolder folder)
  = Some (Raw.wrap <$> Stats.setFolder m folder).
Proof.
  unfold Raw.setFolder, Stats.setFolder.
  change (get (Raw.ofFolder folder) "ranges")
    with (Some (Some (Arr (Raw.ofRange <$> Folder.ranges folder)))).
  simpl. apply (foldM_foldl (Stats.setRange folder)). intros m' range.
  apply setRange_ofRange.
Qed.

Lemma rangeDetailsMap_ofFolders allFolders :
  Raw.rangeDetailsMap (Raw.ofFolders allFolders)
  = Some (Raw.wrap <$> Stats.rangeDetailsMap allFolders).
Proof.
  unfold Raw.rangeDetailsMap, Stats.rangeDetailsMap, Raw.ofFolders. simpl.
  rewrite <-(fmap_empty Raw.wrap).
  apply (foldM_foldl Stats.setFolder). intros m folder.
  apply setFolder_ofFolder.
Qed.

Lemma processStat_ofStats allStats m rangeId :
  Raw.processStat (Raw.ofStats allStats) (Raw.wrap <$> m) rangeId
  = Some (Raw.ofStat (Stats.processStat allStats m rangeId)).
Proof.
  unfold Raw.processStat, Stats.processStat.
  rewrite countOf_ofStats, lookup_fmap. simpl.
  by destruct (m !! rangeId).
Qed.

Lemma mapM_total {A B : Type} (f : A → option B) (g : A → B) l :
  (∀ x, f x = Some (g x)) → mapM f l = Some (g <$> l).
Proof.
  intros Hf. apply mapM_Some_2.
  induction l as [|x l IH]; csimpl; constructor; auto.
Qed.

Lemma insert_fmap {A B : Type} (cmp : A → A → number) (cmp' : B → B → number)
    (h : A → B) x l :
  (∀ a b, cmp' (h a) (h b) = cmp a b) →
  insert cmp' (h x) (h <$> l) = h <$> insert cmp x l.
Proof.
  intros Hcmp. induction l as [|y l IH]; [done|].
  csimpl. rewrite Hcmp. destruct (gtb (cmp x y) zero); [|done].
  csimpl. by rewrite IH.
Qed.

Lemma sort_fmap {A B : Type} (cmp : A → A → number) (cmp' : B → B → number)
    (h : A → B) l :
  (∀ a b, cmp' (h a) (h b) = cmp a b) →
  sort cmp' (h <$> l) = h <$> sort cmp l.
Proof.
  intros Hcmp. induction l as [|x l IH]; [done|].
  csimpl. by rewrite IH, (insert_fmap cmp).
Qed.

Lemma processedStats_ofStorage chart allFolders allStats :
  Raw.processedStats chart (Raw.ofFolders allFolders) (Raw.ofStats allStats)
  = Some (Raw.ofStat <$> Stats.processedStats chart allFolders allStats).
Proof.
  unfold Raw.processedStats. rewrite rangeDetailsMap_ofFolders. simpl.
  rewrite (mapM_total _ (λ rangeId,
             Raw.ofStat (Stats.processStat allStats
                           (Stats.rangeDetailsMap allFolders) rangeId)))
    by (intros rangeId; apply processStat_ofStats).
  f_equal. unfold Stats.processedStats, Set_.Array_from.
  by rewrite <-list_fmap_compose.
Qed.

Lemma topStats_ofStorage chart allFolders allStats :
  Raw.topStats chart (Raw.ofFolders allFolders) (Raw.ofStats allStats)
  = Some (Raw.ofStat <$> Stats.topStats chart allFolders allStats).
Proof.
  unfold Raw.topStats. rewrite processedStats_ofStorage.
  cbn [mbind option_bind]. f_equal.
  unfold Stats.topStats, Stats.sortedStats, slice0.
  rewrite fmap_take. f_equal.
  by rewrite <-(sort_fmap Stats.byCountDesc Raw.byCountDesc).
Qed.

End raw_typed.

Section raw_facts.
Import JS Stats Json Dialog.

Lemma foldM_is_Some {S A : Type} (f : S → A → option S) (ok : A → bool) l :
  (∀ s x, is_Some (f s x) ↔ ok x = true) →
  ∀ s, is_Some (Raw.foldM f s l) ↔ forallb ok l = true.
Proof.
  intros Hf. induction l as [|x l IH]; intros s; simpl.
  - split; [done|]. by eexists.
  - rewrite andb_true_iff, <-(Hf s x). destruct (f s x) as [s'|]; simpl.
    + rewrite IH. split; [intros; split; [by eexists|done] | by intros [_ ?]].
    + split; [by intros [? ?] | by intros [[? ?] _]].
Qed.

Lemma setRange_is_Some folder m range :
  folder ≠ Null →
  is_Some (Raw.setRange folder m range) ↔ negb (Raw.isNull range) = true.
Proof.
  intros Hfolder. unfold Raw.setRange.
  destruct range; simpl; [split; [by intros [? ?] | done]|..];
    (split; [done|]); intros _; destruct folder; simpl;
    first [done | by eexists].
Qed.

Lemma setFolder_is_Some m folder :
  is_Some (Raw.setFolder m folder) ↔ Raw.scannableFolder folder = true.
Proof.
  unfold Raw.setFolder, Raw.scannableFolder.
  destruct (get folder "ranges") as [[ranges|]|] eqn:Hget; simpl;
    [|split; [by intros [? ?] | done]..].
  assert (folder ≠ Null) as Hfolder by (by intros ->).
  destruct ranges; simpl; try (split; [by intros [? ?] | done]).
  apply foldM_is_Some. intros m' range. by apply setRange_is_Some.
Qed.

Lemma rangeDetailsMap_is_Some allFolders :
  is_Some (Raw.rangeDetailsMap allFolders) ↔ Raw.scannable allFolders = true.
Proof.
  unfold Raw.rangeDetailsMap, Raw.scannable.
  destruct allFolders; simpl; try (split; [by intros [? ?] | done]).
  apply foldM_is_Some. intros m folder. apply setFolder_is_Some.
Qed.

Lemma countOf_None allStats rangeId :
  Raw.countOf allStats rangeId = None ↔
  allStats = Null ∨ ∃ v, get allStats rangeId = Some (Some v) ∧ throws v = true.
Proof.
  unfold Raw.countOf.
  destruct (get allStats rangeId) as [[v|]|] eqn:Hget; simpl.
  - destruct (throws v) eqn:Hthrows; simpl.
    + split; [|done]. intros _. right. by exists v.
    + split; [done|]. intros [-> | (v' & [= <-] & ?)]; [done | congruence].
  - split; [done|]. intros [-> | (v' & ? & _)]; done.
  - split; [|done]. intros _. left. by apply get_None in Hget.
Qed.

Lemma countOf_missing allStats rangeId :
  get allStats rangeId = Some None → Raw.countOf allStats rangeId = Some zero.
Proof. unfold Raw.countOf. by intros ->. Qed.

Lemma countOf_entry allStats rangeId v :
  get allStats rangeId = Some (Some v) → throws v = false →
  Raw.countOf allStats rangeId = Some (lor (toNum false v) zero).
Proof. unfold Raw.countOf. intros -> Hthrows. simpl. by rewrite Hthrows. Qed.

Lemma countOf_Some allStats rangeId n :
  Raw.countOf allStats rangeId = Some n →
  n ≠ NaN ∧
  (get allStats rangeId = Some None ∧ n = zero
   ∨ ∃ v, get allStats rangeId = Some (Some v) ∧ throws v = false
          ∧ n = lor (toNum false v) zero).
Proof.
  unfold Raw.countOf.
  destruct (get allStats rangeId) as [[v|]|] eqn:Hget; simpl; [| |done].
  - destruct (throws v) eqn:Hthrows; simpl; [done|]. intros [= <-].
    split; [apply lor_zero_not_NaN|]. right. by exists v.
  - intros [= <-]. split; [done|]. by left.
Qed.

Lemma lor_zero_number n : n ≠ NaN → lor n zero = n.
Proof.
  intros Hn. unfold lor. destruct (truthy n) eqn:Htruthy; [done|].
  by destruct (falsy_cases n Htruthy).
Qed.

Lemma lor_zero_zero n : lor n zero = zero ↔ n = NaN ∨ n = zero.
Proof.
  split.
  - intros Hn. destruct (decide (n = NaN)) as [|Hnan]; [by left|].
    right. by rewrite lor_zero_number in Hn.
  - by intros [-> | ->].
Qed.

Lemma processStat_is_Some allStats m rangeId :
  is_Some (Raw.processStat allStats m rangeId)
  ↔ is_Some (Raw.countOf allStats rangeId).
Proof.
  unfold Raw.processStat.
  destruct (Raw.countOf allStats rangeId); simpl; split; intros [? ?];
    first [done | by eexists].
Qed.

Lemma processStat_Some allStats m rangeId stat :
  Raw.processStat allStats m rangeId = Some stat →
  Raw.Stat.id stat = rangeId ∧
  Raw.countOf allStats rangeId = Some (Raw.Stat.count stat).
Proof.
  unfold Raw.processStat.
  destruct (Raw.countOf allStats rangeId); simpl; [|done]. by intros [= <-].
Qed.

Lemma processedStats_is_Some chart allFolders allStats :
  is_Some (Raw.processedStats chart allFolders allStats) ↔
  Raw.scannable allFolders = true ∧
  ∀ rangeId, rangeId ∈ chartRangeIds chart →
    is_Some (Raw.countOf allStats rangeId).
Proof.
  unfold Raw.processedStats. rewrite <-rangeDetailsMap_is_Some.
  destruct (Raw.rangeDetailsMap allFolders) as [m|]; simpl.
  - rewrite mapM_is_Some, Forall_forall. unfold Set_.Array_from. split.
    + intros Hall. split; [by eexists|]. intros rangeId Hin.
      by apply (processStat_is_Some allStats m), Hall.
    + intros [_ Hall] rangeId Hin. by apply processStat_is_Some, Hall.
  - split; [by intros [? ?] | by intros [[? ?] _]].
Qed.

Lemma processedStats_Some chart allFolders allStats stats :
  Raw.processedStats chart allFolders allStats = Some stats →
  Raw.Stat.id <$> stats = chartRangeIds chart ∧
  Forall (λ stat, Raw.countOf allStats (Raw.Stat.id stat)
                  = Some (Raw.Stat.count stat)) stats.
Proof.
  unfold Raw.processedStats, Set_.Array_from.
  destruct (Raw.rangeDetailsMap allFolders) as [m|]; simpl; [|done].
  intros Hall%mapM_Some.
  induction Hall as [|rangeId stat ids stats Hstat _ [IHids IHcounts]]; [done|].
  apply processStat_Some in Hstat as [<- Hcount].
  split; [by rewrite fmap_cons, IHids | by constructor].
Qed.

Lemma topStats_Some chart allFolders allStats stats :
  Raw.topStats chart allFolders allStats = Some stats ↔
  ∃ resolved,
    Raw.processedStats chart allFolders allStats = Some resolved ∧
    stats = slice0 10 (sort Raw.byCountDesc resolved).
Proof.
  unfold Raw.topStats.
  destruct (Raw.processedStats chart allFolders allStats) as [resolved|];
    cbn [mbind option_bind].
  - split; [intros [= <-]; by exists resolved | by intros (? & [= <-] & ->)].
  - split; [done | by intros (? & ? & _)].
Qed.

Lemma topStats_is_Some chart allFolders allStats :
  is_Some (Raw.topStats chart allFolders allStats)
  ↔ is_Some (Raw.processedStats chart allFolders allStats).
Proof.
  unfold Raw.topStats.
  destruct (Raw.processedStats chart allFolders allStats);
    cbn [mbind option_bind]; split; intros [? ?]; first [done | by eexists].
Qed.

End raw_facts.

(** ** The properties of the result *)

Section claims.
Import JS Stats Refs Samples MoreSamples.

(** C1.  The output is in descending order of count: at every pair of
    adjacent positions [i], [i+1] of the list the effect stores,
    [count[i] >= count[i+1]]. *)
Theorem topStats_descending chart allFolders allStats i a b :
  topStats chart allFolders allStats !! i = Some a →
  topStats chart allFolders allStats !! S i = Some b →
  geb (ProcessedStat.count a) (ProcessedStat.count b) = true.
Proof.
  intros Ha Hb.
  apply (Sorted_adjacent descending (topStats chart allFolders allStats) i a b);
    [apply topStats_Sorted | done | done].
Qed.

Lemma topStats_descending_witness :
  topStats twoRefs [folderF] usage59 !! 0%nat = Some (stat "r2" "F" "B" 9) ∧
  topStats twoRefs [folderF] usage59 !! 1%nat = Some (stat "r1" "F" "A" 5) ∧
  geb (of_Z 9) (of_Z 5) = true.
Proof.
  split_and!; [reflexivity | reflexivity |].
  apply (topStats_descending twoRefs [folderF] usage59 0
           (stat "r2" "F" "B" 9) (stat "r1" "F" "A" 5)); reflexivity.
Defined.

(** C2.  The output has [min(10, d)] entries, where [d] is the number of
    distinct range ids among the references collected from the chart. *)
Theorem topStats_length_min chart allFolders allStats :
  length (topStats chart allFolders allStats)
  = 10 `min` size (list_to_set (ofChart chart) : gset string).
Proof. by rewrite topStats_length, length_chartRangeIds. Qed.

(** C3.  Deduplication: the ids of the resolved entries are pairwise
    distinct, they are exactly the ids the chart refers to, and an id that is
    referred to any number of times, by [linkedItem]s or by enabled link
    buttons, has exactly one entry.  The same holds after sorting, and the
    ids stay distinct after truncation. *)
Theorem resolved_once chart allFolders allStats :
  NoDup (ProcessedStat.id <$> processedStats chart allFolders allStats) ∧
  (∀ rangeId,
     rangeId ∈ ProcessedStat.id <$> processedStats chart allFolders allStats
     ↔ rangeId ∈ ofChart chart) ∧
  (∀ rangeId, rangeId ∈ ofChart chart →
     length (entriesOf rangeId (processedStats chart allFolders allStats)) = 1%nat ∧
     length (entriesOf rangeId (sortedStats chart allFolders allStats)) = 1%nat) ∧
  NoDup (ProcessedStat.id <$> topStats chart allFolders allStats).
Proof.
  assert (NoDup (ProcessedStat.id <$> processedStats chart allFolders allStats))
    as Hnodup by (rewrite processedStats_ids; apply NoDup_chartRangeIds).
  assert (NoDup (ProcessedStat.id <$> sortedStats chart allFolders allStats))
    as Hsorted by (by rewrite sortedStats_Permutation).
  split_and!; [done | | |].
  - intros rangeId. rewrite processedStats_ids. apply elem_of_chartRangeIds.
  - intros rangeId Href%elem_of_chartRangeIds. split.
    + apply entriesOf_once; [done|]. by rewrite processedStats_ids.
    + apply entriesOf_once; [done|].
      by rewrite sortedStats_Permutation, processedStats_ids.
  - unfold topStats, slice0. rewrite fmap_take.
    apply (sublist_NoDup _ _ Hsorted), sublist_take.
Qed.

Lemma resolved_once_witness :
  ofChart repeated = ["r1"; "r1"; "r2"; "r1"] ∧
  length (entriesOf "r1" (processedStats repeated [folderF] usage59)) = 1%nat ∧
  length (entriesOf "r1" (sortedStats repeated [folderF] usage59)) = 1%nat.
Proof.
  split; [reflexivity|].
  apply (resolved_once repeated [folderF] usage59).
  change (ofChart repeated) with ["r1"; "r1"; "r2"; "r1"]. apply list_elem_of_here.
Defined.

(** C4.  Sentinel exclusion: the [linkedItem] of a "normal" button that is
    ["label-only"] or ["exit"] adds nothing to the set, whatever the set held
    before; the chart collects what it would collect if the button had no
    [linkedItem] at all. *)
Theorem sentinel_ignored name pre button post :
  ChartButton.type button = "normal" →
  ChartButton.linkedItem button = Some "label-only"
  ∨ ChartButton.linkedItem button = Some "exit" →
  ofLinkedItem button = [] ∧
  (∀ s, addLinkedItem s button = s) ∧
  chartRangeIds
    {| StoredChart.name := name; StoredChart.buttons := pre ++ button :: post |}
  = chartRangeIds
      {| StoredChart.name := name;
         StoredChart.buttons := pre ++ withoutLinkedItem button :: post |}.
Proof.
  intros Htype Hitem.
  assert (isRangeLink button = false) as Hlink.
  { apply not_true_is_false. intros (_ & x & Hx & _ & Hlabel & Hexit)%isRangeLink_true.
    destruct Hitem; congruence. }
  assert (ofLinkedItem button = []) as Hrefs
    by (unfold ofLinkedItem; by rewrite Hlink).
  split_and!; [done | |].
  - intros s. by rewrite addLinkedItem_collect, Hrefs.
  - rewrite !chartRangeIds_collect. unfold ofChart. simpl.
    rewrite !flat_map_app. simpl. do 3 f_equal.
    unfold ofButton. by rewrite Hrefs, ofLinkedItem_without.
Qed.

Lemma sentinel_ignored_witness :
  chartRangeIds (chartOf [normalButton "r1"; normalButton "exit"; normalButton "r2"])
  = ["r1"; "r2"] ∧
  addLinkedItem ["r1"] (normalButton "exit") = ["r1"].
Proof.
  destruct (sentinel_ignored "chart" [normalButton "r1"] (normalButton "exit")
              [normalButton "r2"] eq_refl (or_intror eq_refl))
    as (_ & Hstep & Hchart).
  split; [exact Hchart | exact (Hstep ["r1"])].
Defined.

(** C5.  Disabled link exclusion: a link button whose [enabled] is false
    leaves the set as it was, whatever its [targetRangeId]; a link button
    changes the set only when it is enabled and its [targetRangeId] is present
    and not the empty string, in which case that id is what it adds; and a
    chart collects what it would collect without its disabled link buttons. *)
Theorem disabled_link_ignored s linkBtn :
  (LinkButton.enabled linkBtn = false →
     addLinkBtn s linkBtn = s ∧ ofLinkBtn linkBtn = []) ∧
  (addLinkBtn s linkBtn ≠ s →
     LinkButton.enabled linkBtn = true ∧
     ∃ target, LinkButton.targetRangeId linkBtn = Some target ∧ target ≠ "" ∧
               addLinkBtn s linkBtn = (s ++ [target])%list) ∧
  (∀ name buttons,
     chartRangeIds
       {| StoredChart.name := name;
          StoredChart.buttons := withoutDisabled <$> buttons |}
     = chartRangeIds
         {| StoredChart.name := name; StoredChart.buttons := buttons |}).
Proof.
  split_and!.
  - intros Hoff. unfold addLinkBtn, ofLinkBtn. by rewrite Hoff.
  - unfold addLinkBtn. destruct (LinkButton.enabled linkBtn); simpl; [|done].
    destruct (LinkButton.targetRangeId linkBtn) as [target|]; simpl; [|done].
    case_bool_decide as Hempty; simpl; [done|]. intros Hchanged.
    split; [done|]. exists target. split_and!; [done..|].
    unfold Set_.add in *. by case_bool_decide.
  - intros name buttons. rewrite !chartRangeIds_collect. f_equal.
    unfold ofChart. simpl.
    induction buttons as [|button buttons IH]; [done|].
    rewrite fmap_cons. simpl. by rewrite IH, ofButton_withoutDisabled.
Qed.

Lemma disabled_link_ignored_witness :
  addLinkBtn ["r1"] (link false "r9") = ["r1"] ∧
  ofLinkBtn (link false "r9") = [] ∧
  chartRangeIds (chartOf (withoutDisabled <$> [normalButton "r1"; deadLinks]))
  = chartRangeIds (chartOf [normalButton "r1"; deadLinks]).
Proof.
  destruct (disabled_link_ignored ["r1"] (link false "r9"))
    as (Hoff & _ & Hchart).
  destruct (Hoff eq_refl) as [Hstep Hrefs].
  split_and!; [exact Hstep | exact Hrefs |].
  exact (Hchart "chart" [normalButton "r1"; deadLinks]).
Defined.

(** C6, as the code has it.  The count of an id is
    [Number(allStats[id]) || 0] for whatever [JSON.parse] made of the stored
    table.  Taking it throws exactly when the table is [null] or the entry
    cannot be converted (an object with a member named [toString], or an
    array that holds one).  Otherwise the count is a number, never [NaN]:
    [0] when the id has no entry, and for an entry [v] the number [v]
    converts to, or [0] when that is [NaN] or zero.  So an entry that is a
    number other than [NaN] is its own count, a negative one included, and an
    entry that is no number counts as what it converts to, which need not be
    [0].  Resolution goes through exactly when the catalog can be scanned and
    the count of every collected id can be taken; the resolved list then has
    one entry for each collected id, in order, with that count. *)
Theorem count_coercion chart (allFolders allStats : Json.value) :
  (∀ rangeId,
     (Raw.countOf allStats rangeId = None ↔
      allStats = Json.Null
      ∨ ∃ v, Json.get allStats rangeId = Some (Some v)
             ∧ Json.throws v = true) ∧
     (∀ n, Raw.countOf allStats rangeId = Some n → n ≠ NaN) ∧
     (Json.get allStats rangeId = Some None →
      Raw.countOf allStats rangeId = Some zero) ∧
     (∀ v, Json.get allStats rangeId = Some (Some v) →
        Json.throws v = false →
        Raw.countOf allStats rangeId = Some (lor (Json.toNum false v) zero) ∧
        (Json.toNum false v ≠ NaN →
         Raw.countOf allStats rangeId = Some (Json.toNum false v)) ∧
        (Raw.countOf allStats rangeId = Some zero ↔
         Json.toNum false v = NaN ∨ Json.toNum false v = zero)) ∧
     (∀ n, Json.get allStats rangeId = Some (Some (Json.Num n)) → n ≠ NaN →
        Raw.countOf allStats rangeId = Some n)) ∧
  (is_Some (Raw.processedStats chart allFolders allStats) ↔
   Raw.scannable allFolders = true ∧
   ∀ rangeId, rangeId ∈ chartRangeIds chart →
     is_Some (Raw.countOf allStats rangeId)) ∧
  (∀ resolved,
     Raw.processedStats chart allFolders allStats = Some resolved →
     Raw.Stat.id <$> resolved = chartRangeIds chart ∧
     Forall (λ stat, Raw.countOf allStats (Raw.Stat.id stat)
                     = Some (Raw.Stat.count stat)) resolved).
Proof.
  split_and!.
  - intros rangeId. split_and!.
    + apply countOf_None.
    + intros n Hn. by apply countOf_Some in Hn as [? _].
    + apply countOf_missing.
    + intros v Hget Hthrows.
      rewrite (countOf_entry allStats rangeId v Hget Hthrows). split_and!.
      * done.
      * intros Hnan. by rewrite lor_zero_number.
      * rewrite <-lor_zero_zero. split; [by intros [= ->] | by intros ->].
    + intros n Hget Hnan.
      rewrite (countOf_entry allStats rangeId (Json.Num n) Hget eq_refl).
      simpl. by rewrite lor_zero_number.
  - apply processedStats_is_Some.
  - apply processedStats_Some.
Qed.

Lemma count_coercion_witness :
  Raw.countOf RawSamples.mixedTable "r1" = Some (of_Z (-5)) ∧
  Raw.countOf RawSamples.mixedTable "r5" = Some zero ∧
  Raw.countOf RawSamples.mixedTable "r6" = Some zero ∧
  Raw.countOf RawSamples.mixedTable "r9" = Some zero.
Proof.
  destruct (count_coercion RawSamples.sixRefs (Json.Arr []) RawSamples.mixedTable)
    as (Hcount & _).
  split_and!.
  - destruct (Hcount "r1") as (_ & _ & _ & _ & Hnumber).
    apply Hnumber; [reflexivity | discriminate].
  - destruct (Hcount "r5") as (_ & _ & _ & Hentry & _).
    exact (proj1 (Hentry Json.Null eq_refl eq_refl)).
  - destruct (Hcount "r6") as (_ & _ & _ & Hentry & _).
    exact (proj1 (Hentry (Json.Str "seven") eq_refl eq_refl)).
  - destruct (Hcount "r9") as (_ & _ & Hmissing & _).
    exact (Hmissing eq_refl).
Defined.

(** C6 as the specification words it fails.  A negative entry gives a
    negative count; the entries [true], ["7"] and [[4]], none of them a
    number, give the counts 1, 7 and 4, not 0; and resolution does fail on
    defects of the stored data: an entry that is an object with a member
    named [toString], a table that is [null], a folder without [ranges]
    each make the [try] block throw, and the effect then logs an error and
    stores the empty list. *)
Lemma count_not_coerced :
  Raw.countOf RawSamples.mixedTable "r1" = Some (of_Z (-5)) ∧
  geb (of_Z (-5)) zero = false ∧
  Raw.countOf RawSamples.mixedTable "r2" = Some (of_Z 1) ∧
  Raw.countOf RawSamples.mixedTable "r3" = Some (of_Z 7) ∧
  Raw.countOf RawSamples.mixedTable "r4" = Some (of_Z 4) ∧
  Raw.tryBlock RawSamples.sixRefs
    (RawSamples.storage (Raw.Parsed RawSamples.mixedTable) Raw.Missing)
  = Some [RawSamples.unnamed "r3" 7; RawSamples.unnamed "r4" 4;
          RawSamples.unnamed "r2" 1; RawSamples.unnamed "r5" 0;
          RawSamples.unnamed "r6" 0; RawSamples.unnamed "r1" (-5)] ∧
  chartRangeIds twoRefs = ["r1"; "r2"] ∧
  Raw.countOf RawSamples.brokenTable "r2" = None ∧
  Raw.useEffect (RawSamples.open twoRefs)
    (RawSamples.storage (Raw.Parsed RawSamples.brokenTable) Raw.Missing)
    Raw.State.initial
  = ({| Raw.State.stats := []; Raw.State.isLoading := false |},
     [Dialog.errorMessage]) ∧
  Raw.useEffect (RawSamples.open twoRefs)
    (RawSamples.storage (Raw.Parsed Json.Null) Raw.Missing)
    Raw.State.initial
  = ({| Raw.State.stats := []; Raw.State.isLoading := false |},
     [Dialog.errorMessage]) ∧
  Raw.useEffect (RawSamples.open twoRefs)
    (RawSamples.storage Raw.Missing (Raw.Parsed RawSamples.folderWithoutRanges))
    Raw.State.initial
  = ({| Raw.State.stats := []; Raw.State.isLoading := false |},
     [Dialog.errorMessage]).
Proof. split_and!; reflexivity. Qed.

(** C7, as the code has it.  Orphan handling: an id the chart refers to and
    no folder holds is resolved, not dropped: its entry carries the two placeholder names and
    the count the usage table gives, that is, the table's number itself
    whenever there is one other than [NaN].  The entry is in the resolved
    list and at some position of the sorted list; the stored list has it at
    that position when the position is among the first ten, as it is
    whenever the chart refers to at most ten ids. *)
Theorem orphan_resolved chart allFolders (allStats : gmap string number) rangeId :
  rangeId ∈ chartRangeIds chart →
  (∀ folder range, folder ∈ allFolders → range ∈ Folder.ranges folder →
     Range.id range ≠ rangeId) →
  let orphan :=
    {| ProcessedStat.id := rangeId;
       ProcessedStat.folderName := "Удаленная папка";
       ProcessedStat.rangeName := "(Ренж не найден)";
       ProcessedStat.count := countOf allStats rangeId |} in
  orphan ∈ processedStats chart allFolders allStats ∧
  (∃ i, sortedStats chart allFolders allStats !! i = Some orphan ∧
        ((i < 10)%nat → topStats chart allFolders allStats !! i = Some orphan)) ∧
  ((length (chartRangeIds chart) ≤ 10)%nat →
     orphan ∈ topStats chart allFolders allStats) ∧
  (∀ n, allStats !! rangeId = Some n → n ≠ NaN →
     ProcessedStat.count orphan = n).
Proof.
  intros Hin Habsent orphan.
  assert (orphan ∈ processedStats chart allFolders allStats) as Hresolved.
  { apply elem_of_processedStats. exists rangeId. split; [done|].
    unfold processStat. by rewrite rangeDetailsMap_absent. }
  split_and!; [done | | |].
  - destruct (sortedStats_position _ _ _ _ Hresolved) as (i & Hi & _).
    exists i. split; [done|]. intros Hten. by rewrite topStats_lookup.
  - intros Hlen. by rewrite topStats_all, sortedStats_Permutation.
  - intros n Hn Hnan. by apply countOf_number.
Qed.

Lemma orphan_resolved_witness :
  topStats orphan [folderF] usage2
  = [stat "r3" "Удаленная папка" "(Ренж не найден)" 2] ∧
  stat "r3" "Удаленная папка" "(Ренж не найден)" 2
    ∈ processedStats orphan [folderF] usage2.
Proof.
  split; [reflexivity|].
  destruct (orphan_resolved orphan [folderF] usage2 "r3") as (Hresolved & _).
  - apply list_elem_of_here.
  - intros folder range ->%list_elem_of_singleton Hrange.
    repeat (apply elem_of_cons in Hrange as [-> | Hrange]; [discriminate|]).
    by apply elem_of_nil in Hrange.
  - exact Hresolved.
Defined.

(** C7 as the specification words it fails: of eleven orphans, ten used
    twice and the last one once, the last one is collected and resolved but
    has no entry in the stored list. *)
Lemma orphan_truncated :
  chartRangeIds eleven
  = ["a"; "b"; "c"; "d"; "e"; "f"; "g"; "h"; "i"; "j"; "k"] ∧
  rangeDetailsMap [] !! "k" = None ∧
  countOf usageEleven "k" = of_Z 1 ∧
  usageEleven !! "k" = Some (of_Z 1) ∧
  ProcessedStat.id <$> topStats eleven [] usageEleven
  = ["a"; "b"; "c"; "d"; "e"; "f"; "g"; "h"; "i"; "j"].
Proof. split_and!; reflexivity. Qed.

(** C8.  Last seen wins: when the catalog holds an id more than once, the
    names used are those of its last occurrence in scan order (folders in
    order, and the ranges of each folder in order); nothing fails. *)
Theorem last_seen_wins allFolders pre post rangeId details
    (allStats : gmap string number) :
  ofCatalog allFolders = (pre ++ (rangeId, details) :: post)%list →
  rangeId ∉ post.*1 →
  let resolved :=
    {| ProcessedStat.id := rangeId;
       ProcessedStat.folderName := Details.folderName details;
       ProcessedStat.rangeName := Details.rangeName details;
       ProcessedStat.count := countOf allStats rangeId |} in
  rangeDetailsMap allFolders !! rangeId = Some details ∧
  processStat allStats (rangeDetailsMap allFolders) rangeId = resolved ∧
  (∀ chart, rangeId ∈ chartRangeIds chart →
     resolved ∈ processedStats chart allFolders allStats).
Proof.
  intros Hscan Hlast resolved.
  assert (rangeDetailsMap allFolders !! rangeId = Some details) as Hget
    by (rewrite rangeDetailsMap_setAll, Hscan; by apply setAll_last).
  assert (processStat allStats (rangeDetailsMap allFolders) rangeId = resolved)
    as Hstat by (unfold processStat; by rewrite Hget).
  split_and!; [done..|].
  intros chart Hin. apply elem_of_processedStats. by exists rangeId.
Qed.

Lemma last_seen_wins_witness :
  ofCatalog [folderF; folderG]
  = [("r1", {| Details.folderName := "F"; Details.rangeName := "A" |});
     ("r2", {| Details.folderName := "F"; Details.rangeName := "B" |});
     ("r1", detailsGC)] ∧
  rangeDetailsMap [folderF; folderG] !! "r1" = Some detailsGC ∧
  processStat usage59 (rangeDetailsMap [folderF; folderG]) "r1"
  = stat "r1" "G" "C" 5.
Proof.
  split; [reflexivity|].
  destruct (last_seen_wins [folderF; folderG]
           [("r1", {| Details.folderName := "F"; Details.rangeName := "A" |});
            ("r2", {| Details.folderName := "F"; Details.rangeName := "B" |})]
           [] "r1" detailsGC usage59) as (Hget & Hstat & _).
  - reflexivity.
  - apply not_elem_of_nil.
  - split; [exact Hget | exact Hstat].
Defined.

(** C9, as the code has it.  The effect filters nothing by count: what it
    stores is the first ten entries of the sorted list of all resolved
    entries.  A collected id whose count is [0] has its entry at some
    position of that sorted list; the entry is in the stored list whenever
    that position is among the first ten, which is certain when the chart
    refers to at most ten ids.  Only the render function hides it. *)
Theorem zero_count_kept chart allFolders (allStats : gmap string number) rangeId :
  rangeId ∈ chartRangeIds chart →
  countOf allStats rangeId = zero →
  ∃ i stat,
    sortedStats chart allFolders allStats !! i = Some stat ∧
    ProcessedStat.id stat = rangeId ∧ ProcessedStat.count stat = zero ∧
    ((i < 10)%nat → topStats chart allFolders allStats !! i = Some stat) ∧
    ((length (chartRangeIds chart) ≤ 10)%nat → (i < 10)%nat) ∧
    stat ∉ displayed (topStats chart allFolders allStats).
Proof.
  intros Hin Hzero.
  destruct (sortedStats_position chart allFolders allStats
              (processStat allStats (rangeDetailsMap allFolders) rangeId))
    as (i & Hi & Hlt).
  { apply elem_of_processedStats. by exists rangeId. }
  exists i, (processStat allStats (rangeDetailsMap allFolders) rangeId).
  split_and!; [done | done | done | | lia |].
  - intros Hten. by rewrite topStats_lookup.
  - intros [Hpos _]%displayed_positive. simpl in Hpos.
    by rewrite Hzero in Hpos.
Qed.

Lemma zero_count_kept_witness :
  topStats twoRefs [folderF] ∅
  = [stat "r1" "F" "A" 0; stat "r2" "F" "B" 0] ∧
  displayed (topStats twoRefs [folderF] ∅) = [] ∧
  ∃ i stat,
    sortedStats twoRefs [folderF] ∅ !! i = Some stat ∧
    ProcessedStat.id stat = "r2" ∧ ProcessedStat.count stat = zero ∧
    ((i < 10)%nat → topStats twoRefs [folderF] ∅ !! i = Some stat) ∧
    ((length (chartRangeIds twoRefs) ≤ 10)%nat → (i < 10)%nat) ∧
    stat ∉ displayed (topStats twoRefs [folderF] ∅).
Proof.
  split_and!; [reflexivity | reflexivity |].
  apply (zero_count_kept twoRefs [folderF] ∅ "r2"); [|reflexivity].
  apply list_elem_of_further, list_elem_of_here.
Defined.

(** C9 as the specification words it fails: of eleven ids that all have
    count [0], the eleventh has no slot in the stored list. *)
Lemma zero_count_truncated :
  chartRangeIds eleven
  = ["a"; "b"; "c"; "d"; "e"; "f"; "g"; "h"; "i"; "j"; "k"] ∧
  countOf ∅ "k" = zero ∧
  ProcessedStat.id <$> topStats eleven [] ∅
  = ["a"; "b"; "c"; "d"; "e"; "f"; "g"; "h"; "i"; "j"].
Proof. split_and!; reflexivity. Qed.

(** C10.  The empty string is no reference: neither a [linkedItem] nor an
    enabled link button's [targetRangeId] that is the empty string changes
    the set, so the empty id is never collected and never shows up in the
    output. *)
Theorem empty_id_never_collected chart allFolders allStats :
  (∀ s button, ChartButton.linkedItem button = Some "" →
     addLinkedItem s button = s) ∧
  (∀ s linkBtn, LinkButton.targetRangeId linkBtn = Some "" →
     addLinkBtn s linkBtn = s) ∧
  ("" ∉ chartRangeIds chart) ∧
  (∀ stat, stat ∈ topStats chart allFolders allStats →
     ProcessedStat.id stat ≠ "").
Proof.
  assert ("" ∉ chartRangeIds chart) as Hnot.
  { rewrite elem_of_chartRangeIds. unfold ofChart.
    rewrite list_elem_of_In, in_flat_map. intros (button & _ & Hin).
    unfold ofButton in Hin. rewrite <-list_elem_of_In, elem_of_app in Hin.
    destruct Hin as [Hin|Hin].
    - apply elem_of_ofLinkedItem in Hin as (_ & _ & Hne & _). done.
    - unfold ofLinkButtons in Hin.
      destruct (ChartButton.linkButtons button) as [linkButtons|];
        [|by apply elem_of_nil in Hin].
      rewrite list_elem_of_In, in_flat_map in Hin.
      destruct Hin as (linkBtn & _ & Hin). rewrite <-list_elem_of_In in Hin.
      apply elem_of_ofLinkBtn in Hin as (_ & _ & Hne). done. }
  split_and!; [| |done|].
  - intros s button Hitem. unfold addLinkedItem, isRangeLink.
    rewrite Hitem. simpl. by rewrite andb_false_r.
  - intros s linkBtn Htarget. unfold addLinkBtn.
    rewrite Htarget. simpl. by rewrite andb_false_r.
  - intros stat Hstat%topStats_sublist Hid. apply Hnot.
    rewrite <-Hid, <-(processedStats_ids chart allFolders allStats).
    by apply list_elem_of_fmap_2.
Qed.

Lemma empty_id_never_collected_witness :
  addLinkedItem ["r1"] (normalButton "") = ["r1"] ∧
  addLinkBtn ["r1"] (link true "") = ["r1"] ∧
  ("" ∉ chartRangeIds (chartOf [normalButton ""; deadLinks])).
Proof.
  destruct (empty_id_never_collected (chartOf [normalButton ""; deadLinks]) [] ∅)
    as (Hitem & Htarget & Hnot & _).
  split_and!; [exact (Hitem ["r1"] (normalButton "") eq_refl)
              | exact (Htarget ["r1"] (link true "") eq_refl) | exact Hnot].
Defined.

End claims.

(** ** Further properties *)

Section further.
Import JS Stats Refs Samples.

(** X1.  The sort is stable: entries with the same count stay in the order in
    which their ids were collected. *)
Theorem ties_keep_order chart allFolders (allStats : gmap string number) count :
  filter (λ stat, ProcessedStat.count stat = count)
         (sortedStats chart allFolders allStats)
  = filter (λ stat, ProcessedStat.count stat = count)
           (processedStats chart allFolders allStats).
Proof.
  apply filter_sort. intros x y Hx Hy. unfold byCountDesc.
  rewrite Hx, Hy. apply sub_self_not_pos.
Qed.

(** X2.  The ten entries kept are ten largest: no entry that truncation removes
    has a larger count than an entry that stays. *)
Theorem topStats_dominates chart allFolders (allStats : gmap string number)
    kept dropped :
  kept ∈ topStats chart allFolders allStats →
  dropped ∈ drop 10 (sortedStats chart allFolders allStats) →
  geb (ProcessedStat.count kept) (ProcessedStat.count dropped) = true.
Proof.
  intros Hkept Hdropped.
  assert (Transitive descending) as Htrans.
  { intros a b c Hab Hbc. unfold descending, geb in *. by eapply leb_trans. }
  apply (StronglySorted_app_1_elem_of descending
           (topStats chart allFolders allStats)
           (drop 10 (sortedStats chart allFolders allStats))); [|done..].
  unfold topStats, slice0. rewrite take_drop.
  apply Sorted_StronglySorted; [done | apply sortedStats_Sorted].
Qed.

Lemma topStats_dominates_witness :
  ProcessedStat.count <$> sortedStats eleven [] (<["k" := of_Z 3]> ∅)
  = of_Z 3 :: replicate 10 zero ∧
  geb (of_Z 3) zero = true.
Proof.
  split; [reflexivity|].
  apply (topStats_dominates eleven [] (<["k" := of_Z 3]> ∅)
           (stat "k" deletedFolder rangeNotFound 3)
           (stat "j" deletedFolder rangeNotFound 0)).
  - apply list_elem_of_here.
  - apply list_elem_of_here.
Defined.

(** The state-only reading of the effect: it leaves [stats] alone unless the dialog is open and has a
    chart; otherwise it stores the ranking computed from what storage holds,
    an absent item counting as empty. *)
Theorem effect_guard isOpen chart storage stats :
  effect false chart storage stats = stats ∧
  effect isOpen None storage stats = stats ∧
  (∀ chart', effect true (Some chart') storage stats
     = topStats chart' (default [] (pokerRangesFolders storage))
                       (default ∅ (trainingStatistics storage))).
Proof.
  split_and!.
  - by destruct chart.
  - done.
  - done.
Qed.

(** The first scenario of the specification: [r1] used 5 times, [r2] used 9
    times, both in folder [F]; and the empty chart. *)
Theorem scenario_two_refs :
  topStats twoRefs [folderF] usage59
  = [stat "r2" "F" "B" 9; stat "r1" "F" "A" 5] ∧
  topStats (chartOf []) [folderF] usage59 = [].
Proof. split; reflexivity. Qed.

End further.

(** ** The collected set, further *)

Section collection_further.
Import JS Stats Refs Samples Order.

Lemma elem_of_ofButton button x :
  x ∈ ofButton button ↔
    (ChartButton.type button = "normal" ∧
     ChartButton.linkedItem button = Some x ∧
     x ≠ "" ∧ x ≠ "label-only" ∧ x ≠ "exit")
    ∨ (∃ linkButtons linkBtn,
         ChartButton.linkButtons button = Some linkButtons ∧
         linkBtn ∈ linkButtons ∧ LinkButton.enabled linkBtn = true ∧
         LinkButton.targetRangeId linkBtn = Some x ∧ x ≠ "").
Proof.
  unfold ofButton. rewrite elem_of_app, elem_of_ofLinkedItem.
  apply or_iff_compat_l. unfold ofLinkButtons.
  destruct (ChartButton.linkButtons button) as [linkButtons|].
  - rewrite list_elem_of_In, in_flat_map. split.
    + intros (linkBtn & Hin & Hx).
      apply list_elem_of_In in Hin. apply list_elem_of_In in Hx.
      apply elem_of_ofLinkBtn in Hx. by exists linkButtons, linkBtn.
    + intros (linkButtons' & linkBtn & [= <-] & Hin & Hx).
      exists linkBtn. rewrite <-!list_elem_of_In.
      split; [done|]. by apply elem_of_ofLinkBtn.
  - rewrite elem_of_nil. split; [done|]. by intros (? & ? & ? & _).
Qed.

(** X5.  What is collected, read off the two guards: an id is in the set
    exactly when some button of the chart is "normal" and has it as its
    [linkedItem], the id being neither empty nor a sentinel, or some button
    of any kind has an enabled link button with it as its non-empty target.
    The sentinel test guards [linkedItem] only. *)
Theorem collected_iff chart x :
  x ∈ chartRangeIds chart ↔
    ∃ button, button ∈ StoredChart.buttons chart ∧
      ((ChartButton.type button = "normal" ∧
        ChartButton.linkedItem button = Some x ∧
        x ≠ "" ∧ x ≠ "label-only" ∧ x ≠ "exit")
       ∨ (∃ linkButtons linkBtn,
            ChartButton.linkButtons button = Some linkButtons ∧
            linkBtn ∈ linkButtons ∧ LinkButton.enabled linkBtn = true ∧
            LinkButton.targetRangeId linkBtn = Some x ∧ x ≠ "")).
Proof.
  rewrite elem_of_chartRangeIds. unfold ofChart.
  rewrite list_elem_of_In, in_flat_map.
  split; intros (button & Hbutton & Hx); exists button.
  - apply list_elem_of_In in Hbutton. apply list_elem_of_In in Hx.
    apply elem_of_ofButton in Hx. by split.
  - rewrite <-!list_elem_of_In. split; [done | by apply elem_of_ofButton].
Qed.

Lemma collected_iff_witness :
  chartRangeIds (chartOf [normalButton "exit"; linksButton [link true "exit"]])
  = ["exit"] ∧
  "exit" ∈ chartRangeIds
             (chartOf [normalButton "exit"; linksButton [link true "exit"]]).
Proof.
  split; [reflexivity|].
  apply (collected_iff
           (chartOf [normalButton "exit"; linksButton [link true "exit"]]) "exit").
  exists (linksButton [link true "exit"]).
  split; [apply list_elem_of_further, list_elem_of_here|].
  right. exists [link true "exit"], (link true "exit").
  split_and!; [reflexivity | apply list_elem_of_here | reflexivity..| discriminate].
Defined.

Lemma collect_firstSeen refs :
  ∀ s, collect s refs = (s ++ filter (λ y, y ∉ s) (firstSeen refs))%list.
Proof.
  induction refs as [|x refs IH]; intros s; simpl.
  - by rewrite app_nil_r.
  - unfold collect in *. simpl. rewrite IH. unfold Set_.add.
    case_bool_decide as Hx.
    + rewrite filter_cons_False by (by intros ?).
      f_equal. rewrite list_filter_filter. apply list_filter_iff.
      intros y. split; [|tauto]. intros Hy. split; [done|]. by intros ->.
    + rewrite filter_cons_True by done. rewrite <-app_assoc. simpl. do 2 f_equal.
      rewrite list_filter_filter. apply list_filter_iff.
      intros y. rewrite elem_of_app, list_elem_of_singleton. tauto.
Qed.

Lemma filter_not_in_nil (l : list string) : filter (λ y, y ∉ []) l = l.
Proof.
  induction l as [|x l IH]; [done|].
  rewrite filter_cons_True by apply not_elem_of_nil. by rewrite IH.
Qed.

(** X6.  The set lists each id at the place of its first reference: it is
    the sequence of references with every later repeat struck out.  With the
    stable sort this fixes the output order among equal counts: the id the
    chart refers to first comes first. *)
Theorem collected_in_first_seen_order chart :
  chartRangeIds chart = firstSeen (ofChart chart).
Proof.
  rewrite chartRangeIds_collect, collect_firstSeen. simpl.
  apply filter_not_in_nil.
Qed.

End collection_further.

(** ** What the result depends on *)

Section dependence.
Import JS Stats Refs Samples MoreSamples.

Lemma leb_antisym a b : leb a b = true → leb b a = true → a = b.
Proof.
  destruct a as [| |x|], b as [| |y|]; simpl; try done.
  rewrite !bool_decide_eq_true. intros H1 H2. f_equal. by apply Qcle_antisym.
Qed.

Lemma ofChart_Permutation chart chart' :
  StoredChart.buttons chart ≡ₚ StoredChart.buttons chart' →
  ofChart chart ≡ₚ ofChart chart'.
Proof. intros Hperm. unfold ofChart. by rewrite Hperm. Qed.

Lemma chartRangeIds_Permutation chart chart' :
  StoredChart.buttons chart ≡ₚ StoredChart.buttons chart' →
  chartRangeIds chart ≡ₚ chartRangeIds chart'.
Proof.
  intros Hperm%ofChart_Permutation.
  apply NoDup_Permutation; [apply NoDup_chartRangeIds..|].
  intros x. by rewrite !elem_of_chartRangeIds, Hperm.
Qed.

Lemma sortedStats_counts_Sorted chart allFolders allStats :
  Sorted (λ a b, geb a b = true)
         (ProcessedStat.count <$> sortedStats chart allFolders allStats).
Proof.
  apply (Sorted_fmap _ descending); [done | apply sortedStats_Sorted].
Qed.

(** X7.  The order of the chart's buttons matters for ties only: two charts
    with the same buttons in different orders collect the same ids, and
    their outputs show the same counts at every position. *)
Theorem button_order_irrelevant chart chart' allFolders
    (allStats : gmap string number) :
  StoredChart.buttons chart ≡ₚ StoredChart.buttons chart' →
  chartRangeIds chart ≡ₚ chartRangeIds chart' ∧
  ProcessedStat.count <$> topStats chart allFolders allStats
  = ProcessedStat.count <$> topStats chart' allFolders allStats.
Proof.
  intros Hperm. pose proof (chartRangeIds_Permutation _ _ Hperm) as Hids.
  split; [done|]. unfold topStats, slice0. rewrite !fmap_take. f_equal.
  assert (Transitive (λ a b : number, geb a b = true)) as Htrans.
  { intros a b c Hab Hbc. unfold geb in *. by eapply leb_trans. }
  apply (Sorted_unique_strong (λ a b : number, geb a b = true));
    [|apply sortedStats_counts_Sorted..|].
  - intros a b _ _ Hab Hba. unfold geb in *. by apply leb_antisym.
  - rewrite !sortedStats_Permutation. unfold processedStats, Set_.Array_from.
    by rewrite Hids.
Qed.

Lemma button_order_irrelevant_witness :
  StoredChart.buttons twoRefs ≡ₚ StoredChart.buttons twoRefsSwapped ∧
  chartRangeIds twoRefsSwapped = ["r2"; "r1"] ∧
  ProcessedStat.count <$> topStats twoRefs [folderF] ∅
  = ProcessedStat.count <$> topStats twoRefsSwapped [folderF] ∅.
Proof.
  assert (StoredChart.buttons twoRefs ≡ₚ StoredChart.buttons twoRefsSwapped)
    as Hperm by apply Permutation_swap.
  split_and!; [exact Hperm | reflexivity |].
  apply (button_order_irrelevant twoRefs twoRefsSwapped [folderF] ∅ Hperm).
Defined.

(** X8.  Only what the chart refers to is read: two usage tables, and two
    catalogs, that agree on every collected id give the same output.  Usage
    of other ranges and folders the chart does not reach change nothing. *)
Theorem unreferenced_irrelevant chart allFolders allFolders'
    (allStats allStats' : gmap string number) :
  (∀ rangeId, rangeId ∈ chartRangeIds chart →
     allStats !! rangeId = allStats' !! rangeId ∧
     rangeDetailsMap allFolders !! rangeId
     = rangeDetailsMap allFolders' !! rangeId) →
  topStats chart allFolders allStats = topStats chart allFolders' allStats'.
Proof.
  intros Hagree. unfold topStats, sortedStats, processedStats, Set_.Array_from.
  do 2 f_equal. apply map_ext_in. intros rangeId Hin%list_elem_of_In.
  destruct (Hagree rangeId Hin) as [Hstats Hdetails].
  unfold processStat, countOf. by rewrite Hstats, Hdetails.
Qed.

Lemma unreferenced_irrelevant_witness :
  usage59 ≠ usage59more ∧
  topStats twoRefs [folderF] usage59 = topStats twoRefs [folderH; folderF] usage59more.
Proof.
  split; [intros Heq; by apply (f_equal (λ m, m !! "r8")) in Heq|].
  apply (unreferenced_irrelevant twoRefs [folderF] [folderH; folderF]
           usage59 usage59more).
  intros rangeId Hin. change (chartRangeIds twoRefs) with ["r1"; "r2"] in Hin.
  repeat (apply elem_of_cons in Hin as [-> | Hin]; [split; reflexivity|]).
  by apply elem_of_nil in Hin.
Defined.

End dependence.

(** ** The catalog lookup, further *)

Section catalog_further.
Import JS Stats Refs Samples MoreSamples.

Lemma setAll_lookup_Some entries :
  ∀ m k v, setAll m entries !! k = Some v →
    (k, v) ∈ entries ∨ m !! k = Some v.
Proof.
  induction entries as [|[k' v'] entries IH]; intros m k v Hget; [by right|].
  unfold setAll in *. simpl in Hget. apply IH in Hget as [Hin|Hget].
  - left. by apply list_elem_of_further.
  - destruct (decide (k' = k)) as [->|Hne].
    + rewrite lookup_insert_eq in Hget. simplify_eq. left. apply list_elem_of_here.
    + rewrite lookup_insert_ne in Hget by done. by right.
Qed.

Lemma setAll_lookup_NoDup entries k v :
  NoDup entries.*1 → (k, v) ∈ entries → setAll ∅ entries !! k = Some v.
Proof.
  intros Hnodup (pre & post & ->)%list_elem_of_split.
  apply setAll_last. rewrite fmap_app, fmap_cons in Hnodup.
  apply NoDup_app in Hnodup as (_ & _ & Hpost).
  by apply NoDup_cons in Hpost as [Hk _].
Qed.

Lemma rangeDetailsMap_lookup_Some allFolders rangeId details :
  rangeDetailsMap allFolders !! rangeId = Some details →
  ∃ folder range, folder ∈ allFolders ∧ range ∈ Folder.ranges folder ∧
    Range.id range = rangeId ∧
    Details.folderName details = Folder.name folder ∧
    Details.rangeName details = Range.name range.
Proof.
  rewrite rangeDetailsMap_setAll. intros [Hin|Hempty]%setAll_lookup_Some.
  - apply elem_of_ofCatalog in Hin as (folder & range & ? & ? & -> & ->).
    by exists folder, range.
  - by rewrite lookup_empty in Hempty.
Qed.

(** X9.  The names in the output are never made up: every entry either has
    both placeholder names, and then no folder of the catalog holds a range
    with its id, or has the folder name and the range name of one range of
    the catalog with its id. *)
Theorem names_from_catalog chart allFolders (allStats : gmap string number) stat :
  stat ∈ topStats chart allFolders allStats →
  (ProcessedStat.folderName stat = deletedFolder ∧
   ProcessedStat.rangeName stat = rangeNotFound ∧
   ∀ folder range, folder ∈ allFolders → range ∈ Folder.ranges folder →
     Range.id range ≠ ProcessedStat.id stat)
  ∨ (∃ folder range, folder ∈ allFolders ∧ range ∈ Folder.ranges folder ∧
       Range.id range = ProcessedStat.id stat ∧
       ProcessedStat.folderName stat = Folder.name folder ∧
       ProcessedStat.rangeName stat = Range.name range).
Proof.
  intros (rangeId & _ & ->)%topStats_sublist%elem_of_processedStats.
  unfold processStat. simpl.
  destruct (rangeDetailsMap allFolders !! rangeId) as [details|] eqn:Hget.
  - right. by apply rangeDetailsMap_lookup_Some.
  - left. split_and!; [done..|]. intros folder range Hfolder Hrange Hid.
    assert ((rangeId, {| Details.folderName := Folder.name folder;
                         Details.rangeName := Range.name range |})
            ∈ ofCatalog allFolders) as Hin
      by (apply elem_of_ofCatalog; by exists folder, range).
    apply list_elem_of_split in Hin as (pre & post & Hsplit).
    rewrite rangeDetailsMap_setAll in Hget.
    assert (is_Some (setAll ∅ (ofCatalog allFolders) !! rangeId)) as [? Hsome];
      [|congruence].
    clear Hget. rewrite Hsplit. clear Hsplit. revert pre.
    induction post as [|[k v] post IH] using rev_ind; intros pre.
    + eexists. by apply setAll_last, not_elem_of_nil.
    + unfold setAll. rewrite app_comm_cons, app_assoc, foldl_app. simpl.
      destruct (decide (k = rangeId)) as [->|Hne].
      * eexists. apply lookup_insert_eq.
      * rewrite lookup_insert_ne by done. apply IH.
Qed.

Lemma names_from_catalog_witness :
  stat "r2" "F" "B" 9 ∈ topStats twoRefs [folderF] usage59 ∧
  ∃ folder range, folder ∈ [folderF] ∧ range ∈ Folder.ranges folder ∧
    Range.id range = "r2" ∧ Folder.name folder = "F" ∧ Range.name range = "B".
Proof.
  assert (stat "r2" "F" "B" 9 ∈ topStats twoRefs [folderF] usage59) as Hin
    by apply list_elem_of_here.
  split; [exact Hin|].
  destruct (names_from_catalog twoRefs [folderF] usage59 _ Hin)
    as [(Hfolder & _) | (folder & range & H1 & H2 & H3 & H4 & H5)].
  - discriminate Hfolder.
  - exists folder, range. split_and!; [done..| by symmetry | by symmetry].
Defined.

(** X10.  When no range id occurs twice in the catalog, the order of the
    folders does not matter: a catalog with the same folders in another
    order gives the same lookup and the same output. *)
Theorem folder_order_irrelevant chart allFolders allFolders'
    (allStats : gmap string number) :
  NoDup (ofCatalog allFolders).*1 →
  allFolders ≡ₚ allFolders' →
  rangeDetailsMap allFolders = rangeDetailsMap allFolders' ∧
  topStats chart allFolders allStats = topStats chart allFolders' allStats.
Proof.
  intros Hnodup Hperm.
  assert (ofCatalog allFolders ≡ₚ ofCatalog allFolders') as Hentries
    by (unfold ofCatalog; by rewrite Hperm).
  assert (NoDup (ofCatalog allFolders').*1) as Hnodup'
    by (by rewrite <-Hentries).
  assert (rangeDetailsMap allFolders = rangeDetailsMap allFolders') as Hmap.
  { rewrite !rangeDetailsMap_setAll. apply map_eq. intros k.
    apply option_eq. intros v. split.
    - intros [Hin|Hempty]%setAll_lookup_Some; [|by rewrite lookup_empty in Hempty].
      apply setAll_lookup_NoDup; [done|]. by rewrite <-Hentries.
    - intros [Hin|Hempty]%setAll_lookup_Some; [|by rewrite lookup_empty in Hempty].
      apply setAll_lookup_NoDup; [done|]. by rewrite Hentries. }
  split; [done|].
  unfold topStats, sortedStats, processedStats. by rewrite Hmap.
Qed.

Lemma folder_order_irrelevant_witness :
  rangeDetailsMap [folderF; folderH] = rangeDetailsMap [folderH; folderF] ∧
  topStats twoRefs [folderF; folderH] usage59
  = topStats twoRefs [folderH; folderF] usage59.
Proof.
  apply (folder_order_irrelevant twoRefs [folderF; folderH] [folderH; folderF]).
  - change (NoDup ["r1"; "r2"; "r8"]).
    repeat (apply NoDup_cons_2;
            [intros Hin;
             repeat (apply elem_of_cons in Hin as [Heq | Hin]; [discriminate|]);
             by apply elem_of_nil in Hin|]).
    apply NoDup_nil_2.
  - apply Permutation_swap.
Defined.

End catalog_further.

(** ** What the dialog shows *)

Section display_facts.
Import JS Stats Refs Samples MoreSamples.

Lemma ltb_leb_trans a b c : ltb a b = true → leb b c = true → ltb a c = true.
Proof.
  destruct a as [| |x|], b as [| |y|], c as [| |z|]; simpl; try done.
  rewrite !bool_decide_eq_true. apply Qclt_le_trans.
Qed.

Lemma descending_Transitive : Transitive descending.
Proof. intros a b c Hab Hbc. unfold descending, geb in *. by eapply leb_trans. Qed.

(** Behind an entry that is not shown, nothing is shown. *)
Lemma displayed_behind_hidden stat stats :
  gtb (ProcessedStat.count stat) zero ≠ true →
  Forall (descending stat) stats → displayed stats = [].
Proof.
  intros Hhidden Hbehind. unfold displayed.
  induction Hbehind as [|stat' stats Hdesc _ IH]; [done|].
  rewrite filter_cons_False; [done|]. intros Hshown. apply Hhidden.
  unfold gtb in *. by eapply ltb_leb_trans.
Qed.

Lemma displayed_take n stats :
  StronglySorted descending stats →
  displayed (take n stats) = take n (displayed stats).
Proof.
  intros Hsorted. revert n.
  induction Hsorted as [|stat stats _ IH Hbehind]; intros [|n]; try done.
  simpl. unfold displayed in *. rewrite !filter_cons.
  destruct (decide (gtb (ProcessedStat.count stat) zero = true)) as [Hshown|Hhidden].
  - simpl. by rewrite IH.
  - fold (displayed (take n stats)). fold (displayed stats).
    rewrite (displayed_behind_hidden stat stats) by done.
    by rewrite (displayed_behind_hidden stat (take n stats))
      by (done || by apply Forall_take).
Qed.

Lemma displayed_prefix stats :
  StronglySorted descending stats →
  displayed stats = take (length (displayed stats)) stats.
Proof.
  induction 1 as [|stat stats _ IH Hbehind]; [done|].
  unfold displayed in *. rewrite filter_cons.
  destruct (decide (gtb (ProcessedStat.count stat) zero = true)) as [Hshown|Hhidden].
  - simpl. by rewrite <-IH.
  - fold (displayed stats). by rewrite (displayed_behind_hidden stat stats).
Qed.

Lemma sortedStats_StronglySorted chart allFolders allStats :
  StronglySorted descending (sortedStats chart allFolders allStats).
Proof.
  apply Sorted_StronglySorted; [apply descending_Transitive|].
  apply sortedStats_Sorted.
Qed.

Lemma topStats_StronglySorted chart allFolders allStats :
  StronglySorted descending (topStats chart allFolders allStats).
Proof.
  apply Sorted_StronglySorted; [apply descending_Transitive|].
  apply topStats_Sorted.
Qed.

Lemma filter_nil_iff_hidden {A} (P : A → Prop) `{!∀ x, Decision (P x)} l :
  filter P l = [] ↔ ∀ x, x ∈ l → ¬ P x.
Proof.
  induction l as [|x l IH].
  - split; [by intros _ ? ?%elem_of_nil | done].
  - rewrite filter_cons. destruct (decide (P x)) as [Hx|Hx].
    + split; [done|]. intros Hall. destruct (Hall x); [apply list_elem_of_here | done].
    + rewrite IH. split.
      * intros Hall y [-> | Hy]%elem_of_cons; [done | by apply Hall].
      * intros Hall y Hy. by apply Hall, list_elem_of_further.
Qed.

Lemma displayed_topStats_take chart allFolders allStats :
  displayed (topStats chart allFolders allStats)
  = take 10 (displayed (sortedStats chart allFolders allStats)).
Proof. apply displayed_take, sortedStats_StronglySorted. Qed.

Lemma displayed_topStats_length chart allFolders (allStats : gmap string number) :
  length (displayed (topStats chart allFolders allStats))
  = 10 `min` length (filter (λ rangeId, gtb (countOf allStats rangeId) zero = true)
                            (chartRangeIds chart)).
Proof.
  rewrite displayed_topStats_take, length_take. f_equal. unfold displayed.
  rewrite sortedStats_Permutation.
  unfold processedStats, Set_.Array_from.
  induction (chartRangeIds chart) as [|rangeId ids IH]; [done|].
  simpl. rewrite !filter_cons. simpl.
  destruct (decide (gtb (countOf allStats rangeId) zero = true)); simpl;
    by rewrite IH.
Qed.

(** X11.  Hiding after truncating loses nothing that truncating after
    hiding would keep: the entries shown are the first ten of the positive
    entries of the whole ranking, so there are [min(10, p)] of them, [p]
    being the number of collected ids with a positive count; and they are an
    initial segment of the stored list, so the position of a row in the
    numbered list is the rank of its entry. *)
Theorem displayed_topStats chart allFolders (allStats : gmap string number) :
  displayed (topStats chart allFolders allStats)
  = take 10 (displayed (sortedStats chart allFolders allStats)) ∧
  displayed (topStats chart allFolders allStats)
  = take (length (displayed (topStats chart allFolders allStats)))
         (topStats chart allFolders allStats) ∧
  length (displayed (topStats chart allFolders allStats))
  = 10 `min` length (filter (λ rangeId, gtb (countOf allStats rangeId) zero = true)
                            (chartRangeIds chart)).
Proof.
  split_and!.
  - apply displayed_topStats_take.
  - apply displayed_prefix, topStats_StronglySorted.
  - apply displayed_topStats_length.
Qed.

End display_facts.

Section raw_display_facts.
Import JS Stats Json Dialog.

Lemma sort_StronglySorted (l : list ProcessedStat.t) :
  Forall (λ stat, ProcessedStat.count stat ≠ NaN) l →
  StronglySorted descending (sort Stats.byCountDesc l).
Proof.
  intros Hl. apply Sorted_StronglySorted; [apply descending_Transitive|].
  apply (Sorted_sort Stats.byCountDesc descending
           (λ stat, ProcessedStat.count stat ≠ NaN)); [| |done].
  - intros x y Hx Hy Hgt. apply ltb_leb, sub_pos_lt; done.
  - intros x y Hx Hy Hgt. apply sub_not_pos_le; done.
Qed.

Lemma shown_erase stats :
  Raw.erase <$> Raw.shown stats = displayed (Raw.erase <$> stats).
Proof.
  unfold Raw.shown, displayed. induction stats as [|stat stats IH]; [done|].
  rewrite fmap_cons.
  destruct (decide (gtb (Raw.Stat.count stat) zero = true)) as [Hshown|Hhidden].
  - rewrite !filter_cons_True by done. by rewrite fmap_cons, IH.
  - by rewrite !filter_cons_False by done.
Qed.

Lemma erase_topStats resolved :
  Raw.erase <$> slice0 10 (sort Raw.byCountDesc resolved)
  = slice0 10 (sort Stats.byCountDesc (Raw.erase <$> resolved)).
Proof.
  unfold slice0. rewrite fmap_take. f_equal. symmetry. by apply sort_fmap.
Qed.

Lemma shown_topStats_length resolved :
  Forall (λ stat, Raw.Stat.count stat ≠ NaN) resolved →
  length (Raw.shown (slice0 10 (sort Raw.byCountDesc resolved)))
  = 10 `min` length (Raw.shown resolved).
Proof.
  intros Hresolved.
  rewrite <-(length_fmap Raw.erase), shown_erase, erase_topStats.
  unfold slice0. rewrite displayed_take, length_take.
  - f_equal. unfold displayed. rewrite sort_Permutation.
    fold (displayed (Raw.erase <$> resolved)).
    by rewrite <-shown_erase, length_fmap.
  - apply sort_StronglySorted, Forall_fmap.
    eapply Forall_impl; [exact Hresolved|]. done.
Qed.

Lemma processedStats_counts chart allFolders allStats resolved :
  Raw.processedStats chart allFolders allStats = Some resolved →
  Forall (λ stat, Raw.Stat.count stat ≠ NaN) resolved.
Proof.
  intros [_ Hcounts]%processedStats_Some.
  eapply Forall_impl; [exact Hcounts|]. intros stat Hcount. simpl in Hcount.
  by apply countOf_Some in Hcount as [? _].
Qed.

Lemma shown_nil chart allFolders allStats resolved :
  Raw.processedStats chart allFolders allStats = Some resolved →
  Raw.shown resolved = [] ↔
  ∀ rangeId n, rangeId ∈ chartRangeIds chart →
    Raw.countOf allStats rangeId = Some n → gtb n zero = false.
Proof.
  intros [Hids Hcounts]%processedStats_Some.
  rewrite Forall_forall in Hcounts.
  unfold Raw.shown. rewrite filter_nil_iff_hidden. split.
  - intros Hall rangeId n Hin Hn. rewrite <-Hids in Hin.
    apply list_elem_of_fmap in Hin as (stat & -> & Hstat).
    specialize (Hcounts stat Hstat). simpl in Hcounts.
    assert (n = Raw.Stat.count stat) as -> by congruence.
    by apply not_true_iff_false, Hall.
  - intros Hall stat Hstat. apply not_true_iff_false.
    apply (Hall (Raw.Stat.id stat)); [|by apply Hcounts].
    rewrite <-Hids. by apply list_elem_of_fmap_2.
Qed.

Lemma topStats_None chart allFolders allStats :
  Raw.topStats chart allFolders allStats = None ↔
  Raw.scannable allFolders = false ∨
  ∃ rangeId, rangeId ∈ chartRangeIds chart
             ∧ Raw.countOf allStats rangeId = None.
Proof.
  rewrite eq_None_not_Some, topStats_is_Some, processedStats_is_Some. split.
  - intros Hnot. destruct (Raw.scannable allFolders) eqn:Hscan; [|by left].
    right.
    destruct (decide (Exists (λ rangeId, Raw.countOf allStats rangeId = None)
                             (chartRangeIds chart))) as [Hex|Hnex].
    + by apply Exists_exists in Hex.
    + destruct Hnot. split; [done|]. intros rangeId Hin.
      destruct (Raw.countOf allStats rangeId) eqn:Hcount; [by eexists|].
      destruct Hnex. apply Exists_exists. by exists rangeId.
  - intros [Hscan | (rangeId & Hin & Hnone)] [Hscan' Hall]; [congruence|].
    specialize (Hall rangeId Hin). rewrite Hnone in Hall. by destruct Hall.
Qed.

Lemma tryBlock_None chart storage :
  Raw.tryBlock chart storage = None ↔
  Raw.training_statistics storage = Raw.Unparsable
  ∨ Raw.poker_ranges_folders storage = Raw.Unparsable
  ∨ ∃ allStats allFolders,
      Raw.parseOr (Raw.training_statistics storage) (Obj []) = Some allStats
      ∧ Raw.parseOr (Raw.poker_ranges_folders storage) (Arr []) = Some allFolders
      ∧ (Raw.scannable allFolders = false
         ∨ ∃ rangeId, rangeId ∈ chartRangeIds chart
                      ∧ Raw.countOf allStats rangeId = None).
Proof.
  unfold Raw.tryBlock.
  destruct (Raw.training_statistics storage) as [| |allStats] eqn:Hstats;
    destruct (Raw.poker_ranges_folders storage) as [| |allFolders] eqn:Hfolders;
    cbn [Raw.parseOr mbind option_bind];
    try (split; [intros _; first [by left | by right; left] | done]);
    rewrite topStats_None;
    (split;
     [ intros Hthrown; right; right; by eexists _, _
     | intros [? | [? | (? & ? & [= <-] & [= <-] & Hthrown)]]; done ]).
Qed.

Lemma raw_useEffect_run props storage st chart :
  isOpen props = true →
  Dialog.chart props = Some chart →
  Raw.useEffect props storage st
  = match Raw.tryBlock chart storage with
    | Some stats =>
        ({| Raw.State.stats := stats; Raw.State.isLoading := false |}, [])
    | None =>
        ({| Raw.State.stats := []; Raw.State.isLoading := false |},
         [errorMessage])
    end.
Proof.
  intros Hopen Hchart. unfold Raw.useEffect. rewrite Hchart, Hopen.
  by destruct (Raw.tryBlock chart storage).
Qed.

Lemma tryBlock_Some chart storage stats :
  Raw.tryBlock chart storage = Some stats →
  ∃ allStats allFolders resolved,
    Raw.parseOr (Raw.training_statistics storage) (Obj []) = Some allStats
    ∧ Raw.parseOr (Raw.poker_ranges_folders storage) (Arr []) = Some allFolders
    ∧ Raw.processedStats chart allFolders allStats = Some resolved
    ∧ stats = slice0 10 (sort Raw.byCountDesc resolved).
Proof.
  unfold Raw.tryBlock.
  destruct (Raw.parseOr (Raw.training_statistics storage) (Obj []))
    as [allStats|]; cbn [mbind option_bind]; [|done].
  destruct (Raw.parseOr (Raw.poker_ranges_folders storage) (Arr []))
    as [allFolders|]; cbn [mbind option_bind]; [|done].
  intros (resolved & ? & ?)%topStats_Some. by exists allStats, allFolders, resolved.
Qed.

End raw_display_facts.

(** ** The component *)

Section component_facts.
Import JS Stats Refs Samples MoreSamples Dialog.

Lemma topStats_ids_NoDup chart allFolders allStats :
  NoDup (ProcessedStat.id <$> topStats chart allFolders allStats).
Proof.
  unfold topStats, slice0. rewrite fmap_take.
  apply (sublist_NoDup _ (ProcessedStat.id <$> sortedStats chart allFolders allStats));
    [|apply sublist_take].
  rewrite sortedStats_Permutation, processedStats_ids. apply NoDup_chartRangeIds.
Qed.

Lemma topStats_nil chart allFolders allStats :
  topStats chart allFolders allStats = [] ↔ chartRangeIds chart = [].
Proof.
  rewrite <-!length_zero_iff_nil, topStats_length.
  destruct (length (chartRangeIds chart)); simpl; lia.
Qed.

(** What the [stats] cell can hold: nothing, or a ranking. *)
Lemma useEffect_stats props storage st :
  State.stats (useEffect props storage st).1 = State.stats st
  ∨ State.stats (useEffect props storage st).1 = []
  ∨ ∃ chart allFolders allStats,
      State.stats (useEffect props storage st).1
      = topStats chart allFolders allStats.
Proof.
  unfold useEffect. destruct (chart props) as [chart|]; [|by left].
  destruct (isOpen props); [|by left].
  unfold tryBlock.
  destruct (parseOr (training_statistics storage) ∅) as [allStats|]; simpl;
    [|by right; left].
  destruct (parseOr (poker_ranges_folders storage) []) as [allFolders|]; simpl;
    [|by right; left].
  right. right. by exists chart, allFolders, allStats.
Qed.

Lemma foldl_useEffect_stats inputs :
  ∀ st,
    (State.stats st = [] ∨
     ∃ chart allFolders allStats,
       State.stats st = topStats chart allFolders allStats) →
    let st' := foldl (λ st input, (useEffect input.1 input.2 st).1) st inputs in
    State.stats st' = [] ∨
    ∃ chart allFolders allStats,
      State.stats st' = topStats chart allFolders allStats.
Proof.
  induction inputs as [|[props storage] inputs IH]; intros st Hst; [done|].
  simpl. apply IH. simpl.
  destruct (useEffect_stats props storage st) as [-> | [-> | Htop]];
    [done | by left | by right].
Qed.

Lemma afterEffects_stats inputs :
  State.stats (afterEffects inputs) = [] ∨
  ∃ chart allFolders allStats,
    State.stats (afterEffects inputs) = topStats chart allFolders allStats.
Proof. apply (foldl_useEffect_stats inputs State.initial). by left. Qed.

(** X12.  Whatever sequence of props and storage contents the effect has
    fired on, the list the dialog shows is well formed: its rows have
    pairwise distinct keys, positive counts in descending order, there are at
    most ten of them, and the "no data" notice is there exactly when there
    is no row. *)
Theorem rows_well_formed inputs rows noData :
  body (afterEffects inputs) = OrderedList rows noData →
  NoDup (Row.key <$> rows) ∧
  Sorted (λ a b, geb (Row.count a) (Row.count b) = true) rows ∧
  Forall (λ r, gtb (Row.count r) zero = true) rows ∧
  (length rows ≤ 10)%nat ∧
  (noData = true ↔ rows = []).
Proof.
  unfold body. destruct (State.isLoading (afterEffects inputs)); [done|].
  case_bool_decide as Hlen; [|done]. intros [= <- <-].
  fold (displayed (State.stats (afterEffects inputs))).
  destruct (afterEffects_stats inputs) as [Hnil | (chart & F & S & Htop)].
  { rewrite Hnil in Hlen. simpl in Hlen. lia. }
  rewrite Htop in *.
  pose proof (displayed_prefix _ (topStats_StronglySorted chart F S)) as Hprefix.
  split_and!.
  - rewrite <-list_fmap_compose. change (Row.key ∘ row) with ProcessedStat.id.
    apply (sublist_NoDup _ (ProcessedStat.id <$> topStats chart F S));
      [apply topStats_ids_NoDup|].
    apply fmap_sublist, sublist_filter.
  - apply (Sorted_fmap _ descending); [done|].
    rewrite Hprefix. apply Sorted_take, topStats_Sorted.
  - apply Forall_fmap, Forall_forall.
    by intros stat [Hshown _]%displayed_positive.
  - rewrite length_fmap, Hprefix, length_take, topStats_length. lia.
  - rewrite bool_decide_eq_true, length_zero_iff_nil. split; [by intros ->|].
    apply fmap_nil_inv.
Qed.

Lemma rows_well_formed_witness :
  body (afterEffects
          [({| isOpen := true; chart := Some twoRefs |},
            {| training_statistics := Parsed usage59;
               poker_ranges_folders := Parsed [folderF] |})])
  = OrderedList
      [ {| Row.key := "r2"; Row.heading := "F - B:"; Row.count := of_Z 9 |};
        {| Row.key := "r1"; Row.heading := "F - A:"; Row.count := of_Z 5 |} ]
      false ∧
  NoDup ["r2"; "r1"].
Proof.
  split; [reflexivity|].
  refine (proj1 (rows_well_formed
    [({| isOpen := true; chart := Some twoRefs |},
      {| training_statistics := Parsed usage59;
         poker_ranges_folders := Parsed [folderF] |})]
    [ {| Row.key := "r2"; Row.heading := "F - B:"; Row.count := of_Z 9 |};
      {| Row.key := "r1"; Row.heading := "F - A:"; Row.count := of_Z 5 |} ]
    false eq_refl)).
Defined.

Lemma runs_Some props chart :
  Dialog.chart props = Some chart → runs props = isOpen props.
Proof.
  intros Hchart. unfold runs. rewrite Hchart.
  rewrite bool_decide_eq_true_2 by done. apply andb_true_r.
Qed.

Lemma runs_None props : Dialog.chart props = None → runs props = false.
Proof.
  intros Hchart. unfold runs. rewrite Hchart.
  rewrite bool_decide_eq_false_2 by (by intros [? ?]). apply andb_false_r.
Qed.

Lemma useEffect_isLoading props storage st :
  State.isLoading (useEffect props storage st).1
  = State.isLoading st && negb (runs props).
Proof.
  unfold useEffect. destruct (chart props) as [chart|] eqn:Hchart.
  - rewrite (runs_Some props chart Hchart). destruct (isOpen props); simpl.
    + destruct (tryBlock chart storage); simpl; by rewrite andb_false_r.
    + by rewrite andb_true_r.
  - rewrite (runs_None props Hchart). simpl. by rewrite andb_true_r.
Qed.

Lemma foldl_useEffect_isLoading inputs :
  ∀ st,
    State.isLoading (foldl (λ st input, (useEffect input.1 input.2 st).1) st inputs)
    = State.isLoading st && forallb (λ input, negb (runs input.1)) inputs.
Proof.
  induction inputs as [|[props storage] inputs IH]; intros st; simpl.
  - by rewrite andb_true_r.
  - by rewrite IH, useEffect_isLoading, andb_assoc.
Qed.

(** X13.  The spinner is shown until the effect first gets past its guard
    and never after: when the effect has fired on a sequence of props, the
    body is the spinner exactly when in none of them the dialog was open with
    a chart.  In particular a dialog that was only ever opened without a
    chart keeps showing the spinner, and a parse failure ends the spinner as
    a success does. *)
Theorem spinner_until_first_run inputs :
  body (afterEffects inputs) = Spinner ↔
  Forall (λ input, isOpen input.1 = false ∨ chart input.1 = None) inputs.
Proof.
  assert (State.isLoading (afterEffects inputs)
          = forallb (λ input, negb (runs input.1)) inputs) as Hloading
    by apply (foldl_useEffect_isLoading inputs State.initial).
  assert (body (afterEffects inputs) = Spinner
          ↔ State.isLoading (afterEffects inputs) = true) as ->.
  { unfold body. destruct (State.isLoading (afterEffects inputs)); [done|].
    by case_bool_decide. }
  rewrite Hloading, forallb_forall, Forall_forall.
  apply forall_proper. intros [props storage]. rewrite <-list_elem_of_In.
  apply forall_proper. intros _. simpl. rewrite negb_true_iff.
  destruct (chart props) as [chart|] eqn:Hchart.
  - rewrite (runs_Some props chart Hchart). split; [by left|]. by intros [? | ?].
  - rewrite (runs_None props Hchart). split; [by right | done].
Qed.

Lemma spinner_until_first_run_witness :
  body (afterEffects
          [({| isOpen := false; chart := Some twoRefs |},
            {| training_statistics := Absent; poker_ranges_folders := Absent |});
           ({| isOpen := true; chart := None |},
            {| training_statistics := Absent; poker_ranges_folders := Absent |})])
  = Spinner.
Proof.
  apply spinner_until_first_run.
  apply Forall_cons_2; [by left|].
  apply Forall_cons_2; [by right|]. apply Forall_nil_2.
Defined.

(** X14.  Storage that cannot be read empties the dialog: when the effect
    gets past its guard and [JSON.parse] throws on either item, the effect
    stores the empty list, clears the loading flag and logs one error, and
    the body is the "no linked ranges" notice, whatever the chart refers
    to and whatever was stored before. *)
Theorem unreadable_storage props storage st chart :
  isOpen props = true →
  Dialog.chart props = Some chart →
  training_statistics storage = Malformed
  ∨ poker_ranges_folders storage = Malformed →
  useEffect props storage st
  = ({| State.stats := []; State.isLoading := false |}, [errorMessage]) ∧
  body (useEffect props storage st).1 = NoLinkedRanges.
Proof.
  intros Hopen Hchart Hbad.
  assert (tryBlock chart storage = None) as Htry.
  { unfold tryBlock. destruct Hbad as [-> | ->]; simpl; [done|].
    by destruct (parseOr (training_statistics storage) ∅). }
  unfold useEffect. rewrite Hchart, Hopen, Htry. done.
Qed.

Lemma unreadable_storage_witness :
  useEffect {| isOpen := true; chart := Some twoRefs |}
            {| training_statistics := Parsed usage59;
               poker_ranges_folders := Malformed |}
            {| State.stats := [stat "r1" "F" "A" 5]; State.isLoading := false |}
  = ({| State.stats := []; State.isLoading := false |}, [errorMessage]).
Proof.
  refine (proj1 (unreadable_storage
    {| isOpen := true; chart := Some twoRefs |}
    {| training_statistics := Parsed usage59;
       poker_ranges_folders := Malformed |}
    {| State.stats := [stat "r1" "F" "A" 5]; State.isLoading := false |}
    twoRefs eq_refl eq_refl _)).
  right. reflexivity.
Defined.

(** X3.  The effect can be repeated: when the dialog is closed or has no
    chart it changes nothing and logs nothing, and in every case firing it a
    second time on the same props and storage leaves the state the first
    firing left. *)
Theorem effect_repeatable props storage st :
  (isOpen props = false ∨ Dialog.chart props = None →
     useEffect props storage st = (st, [])) ∧
  (useEffect props storage (useEffect props storage st).1).1
  = (useEffect props storage st).1.
Proof.
  split.
  - unfold useEffect. intros [Hclosed | Hnone].
    + rewrite Hclosed. by destruct (chart props).
    + by rewrite Hnone.
  - unfold useEffect. destruct (chart props) as [chart|]; [|done].
    destruct (isOpen props); [|done].
    by destruct (tryBlock chart storage).
Qed.

Lemma effect_repeatable_witness :
  useEffect {| isOpen := false; chart := Some twoRefs |}
            {| training_statistics := Malformed; poker_ranges_folders := Absent |}
            State.initial
  = (State.initial, []).
Proof.
  refine (proj1 (effect_repeatable
    {| isOpen := false; chart := Some twoRefs |}
    {| training_statistics := Malformed; poker_ranges_folders := Absent |}
    State.initial) _).
  left. reflexivity.
Defined.

(** X4.  Nothing is shown that the chart does not refer to, and nothing is
    lost while there is room: the id of every entry of the output is a
    collected id, and when the chart refers to at most ten ids the ids of
    the output are all of them, each once. *)
Theorem output_ids chart allFolders (allStats : gmap string number) :
  (∀ stat, stat ∈ topStats chart allFolders allStats →
     ProcessedStat.id stat ∈ chartRangeIds chart) ∧
  ((length (chartRangeIds chart) ≤ 10)%nat →
     ProcessedStat.id <$> topStats chart allFolders allStats
     ≡ₚ chartRangeIds chart).
Proof.
  split.
  - intros stat Hstat%topStats_sublist.
    rewrite <-(processedStats_ids chart allFolders allStats).
    by apply list_elem_of_fmap_2.
  - intros Hfew.
    by rewrite topStats_all, sortedStats_Permutation, processedStats_ids.
Qed.

Lemma output_ids_witness :
  ProcessedStat.id <$> topStats twoRefs [folderF] usage59 = ["r2"; "r1"] ∧
  ProcessedStat.id <$> topStats twoRefs [folderF] usage59 ≡ₚ chartRangeIds twoRefs.
Proof.
  split; [reflexivity|].
  apply (output_ids twoRefs [folderF] usage59).
  change (2 ≤ 10)%nat. lia.
Defined.

End component_facts.

(** ** Storage of any shape *)

Section raw_component.
Import JS Stats Json Dialog Samples RawSamples.

(** X15.  What the dialog settles on, for any contents of storage.  When the
    effect gets past its guard it clears the loading flag.  The [try] block
    throws exactly when [JSON.parse] throws on an item, or the parsed catalog
    is not an array of folders that each have an array of ranges (no folder
    and no range being [null]), or the count of some collected id cannot be
    taken (the parsed table is [null], or the entry cannot be converted).
    Then the effect stores the empty list and logs one error, and the body
    is the "no linked ranges" notice, whatever the chart refers to.
    Otherwise it stores the ranking and logs nothing; the body is the "no
    linked ranges" notice exactly when the chart collects no id, and
    otherwise the list of the entries of the ranking with a positive count,
    with the "no data" notice in it exactly when no collected id has a
    positive count. *)
Theorem settled_body props storage st chart :
  isOpen props = true →
  Dialog.chart props = Some chart →
  Raw.State.isLoading (Raw.useEffect props storage st).1 = false ∧
  (Raw.tryBlock chart storage = None ↔
   Raw.training_statistics storage = Raw.Unparsable
   ∨ Raw.poker_ranges_folders storage = Raw.Unparsable
   ∨ ∃ allStats allFolders,
       Raw.parseOr (Raw.training_statistics storage) (Obj []) = Some allStats
       ∧ Raw.parseOr (Raw.poker_ranges_folders storage) (Arr []) = Some allFolders
       ∧ (Raw.scannable allFolders = false
          ∨ ∃ rangeId, rangeId ∈ chartRangeIds chart
                       ∧ Raw.countOf allStats rangeId = None)) ∧
  (Raw.tryBlock chart storage = None →
   Raw.useEffect props storage st
   = ({| Raw.State.stats := []; Raw.State.isLoading := false |}, [errorMessage])
   ∧ Raw.body (Raw.useEffect props storage st).1 = Raw.NoLinkedRanges) ∧
  (∀ stats, Raw.tryBlock chart storage = Some stats →
   Raw.useEffect props storage st
   = ({| Raw.State.stats := stats; Raw.State.isLoading := false |}, [])
   ∧ length stats = 10 `min` length (chartRangeIds chart)
   ∧ (Raw.body (Raw.useEffect props storage st).1 = Raw.NoLinkedRanges
      ↔ chartRangeIds chart = [])
   ∧ (chartRangeIds chart ≠ [] →
      ∃ noData,
        Raw.body (Raw.useEffect props storage st).1
        = Raw.OrderedList (Raw.row <$> Raw.shown stats) noData
        ∧ ∀ allStats,
            Raw.parseOr (Raw.training_statistics storage) (Obj [])
            = Some allStats →
            (noData = true ↔
             ∀ rangeId n, rangeId ∈ chartRangeIds chart →
               Raw.countOf allStats rangeId = Some n → gtb n zero = false))).
Proof.
  intros Hopen Hchart.
  rewrite (raw_useEffect_run props storage st chart Hopen Hchart).
  split_and!.
  - by destruct (Raw.tryBlock chart storage).
  - apply tryBlock_None.
  - by intros ->.
  - intros stats Hstats. rewrite Hstats.
    destruct (tryBlock_Some _ _ _ Hstats)
      as (allStats & allFolders & resolved & Hparsed & _ & Hresolved & ->).
    assert (length (slice0 10 (sort Raw.byCountDesc resolved))
            = 10 `min` length (chartRangeIds chart)) as Hlen.
    { apply processedStats_Some in Hresolved as Hids. destruct Hids as [<- _].
      unfold slice0. by rewrite length_take, sort_length, length_fmap. }
    assert ((0 < length (slice0 10 (sort Raw.byCountDesc resolved)))%nat
            ↔ chartRangeIds chart ≠ []) as Hpos.
    { rewrite Hlen. destruct (chartRangeIds chart); simpl; split; intros;
        first [lia | done]. }
    unfold Raw.body. cbn [Raw.State.isLoading Raw.State.stats fst].
    split_and!; [done | done | |].
    + case_bool_decide as Hsome.
      * split; [done|]. intros Hnil. by apply Hpos in Hsome.
      * split; [|done]. intros _.
        destruct (decide (chartRangeIds chart = [])) as [|Hne]; [done|].
        by apply Hpos in Hne.
    + intros Hne. rewrite bool_decide_eq_true_2 by (by apply Hpos).
      eexists. split; [reflexivity|]. intros allStats' Hparsed'.
      assert (allStats' = allStats) as -> by congruence.
      rewrite bool_decide_eq_true, shown_topStats_length
        by (by eapply processedStats_counts).
      rewrite <-(shown_nil chart allFolders allStats resolved Hresolved).
      rewrite <-length_zero_iff_nil. lia.
Qed.

Lemma settled_body_witness :
  (Raw.useEffect (RawSamples.open sixRefs)
                 (storage (Raw.Parsed mixedTable) Raw.Missing) Raw.State.initial
   = ({| Raw.State.stats :=
           [unnamed "r3" 7; unnamed "r4" 4; unnamed "r2" 1;
            unnamed "r5" 0; unnamed "r6" 0; unnamed "r1" (-5)];
         Raw.State.isLoading := false |}, []) ∧
   ∃ noData,
     Raw.body (Raw.useEffect (RawSamples.open sixRefs)
                             (storage (Raw.Parsed mixedTable) Raw.Missing)
                             Raw.State.initial).1
     = Raw.OrderedList
         (Raw.row <$> [unnamed "r3" 7; unnamed "r4" 4; unnamed "r2" 1])
         noData) ∧
  Raw.useEffect (RawSamples.open twoRefs) (storage (Raw.Parsed Null) Raw.Missing)
                Raw.State.initial
  = ({| Raw.State.stats := []; Raw.State.isLoading := false |}, [errorMessage]) ∧
  Raw.body (Raw.useEffect (RawSamples.open twoRefs)
                          (storage (Raw.Parsed Null) Raw.Missing)
                          Raw.State.initial).1
  = Raw.NoLinkedRanges.
Proof.
  split.
  - destruct (settled_body (RawSamples.open sixRefs)
                (storage (Raw.Parsed mixedTable) Raw.Missing) Raw.State.initial
                sixRefs eq_refl eq_refl) as (_ & _ & _ & Hloaded).
    destruct (Hloaded
                [unnamed "r3" 7; unnamed "r4" 4; unnamed "r2" 1;
                 unnamed "r5" 0; unnamed "r6" 0; unnamed "r1" (-5)] eq_refl)
      as (Hrun & _ & _ & Hbody).
    split; [exact Hrun|].
    assert (chartRangeIds sixRefs ≠ []) as Hne by discriminate.
    destruct (Hbody Hne) as (noData & Hshown & _).
    exists noData. exact Hshown.
  - exact (proj1 (proj2 (proj2 (settled_body
      (RawSamples.open twoRefs) (storage (Raw.Parsed Null) Raw.Missing)
      Raw.State.initial twoRefs eq_refl eq_refl))) eq_refl).
Defined.

End raw_component.

Section raw_further.
Import JS Stats Json Dialog Samples RawSamples.

Lemma setRange_Some folder m range m' :
  Raw.setRange folder m range = Some m' →
  m' = match Raw.idOf range with
       | Some id => <[id := Raw.namesOf (folder, range)]> m
       | None => m
       end.
Proof.
  unfold Raw.setRange, Raw.idOf, Raw.namesOf. simpl.
  destruct (get range "id") as [id|]; simpl; [|done].
  destruct (get folder "name") as [folderName|]; simpl; [|done].
  destruct (get range "name") as [rangeName|]; simpl; [|done].
  intros [= <-]. by destruct id as [[]|].
Qed.

Lemma lastSeen_cons rangeId visit visits :
  Raw.lastSeen rangeId (visit :: visits)
  = match Raw.lastSeen rangeId visits with
    | Some names => Some names
    | None =>
        if decide (Raw.idOf visit.2 = Some rangeId)
        then Some (Raw.namesOf visit) else None
    end.
Proof.
  unfold Raw.lastSeen. rewrite filter_cons.
  destruct (decide (Raw.idOf visit.2 = Some rangeId)).
  - by rewrite fmap_cons, last_cons.
  - by destruct (last _).
Qed.

Lemma lastSeen_app rangeId visits1 visits2 :
  Raw.lastSeen rangeId (visits1 ++ visits2)
  = match Raw.lastSeen rangeId visits2 with
    | Some names => Some names
    | None => Raw.lastSeen rangeId visits1
    end.
Proof. unfold Raw.lastSeen. by rewrite filter_app, fmap_app, last_app. Qed.

Lemma foldM_setRange_lookup folder ranges rangeId :
  ∀ m m',
    Raw.foldM (Raw.setRange folder) m ranges = Some m' →
    m' !! rangeId
    = match Raw.lastSeen rangeId ((λ range, (folder, range)) <$> ranges) with
      | Some names => Some names
      | None => m !! rangeId
      end.
Proof.
  induction ranges as [|range ranges IH]; intros m m'; csimpl.
  - by intros [= <-].
  - destruct (Raw.setRange folder m range) as [m1|] eqn:Hset; csimpl; [|done].
    intros Hrest. rewrite (IH _ _ Hrest), lastSeen_cons.
    destruct (Raw.lastSeen rangeId _); [done|].
    apply setRange_Some in Hset as ->. simpl.
    destruct (Raw.idOf range) as [id|] eqn:Hid.
    + destruct (decide (Some id = Some rangeId)) as [[= ->]|Hne].
      * by rewrite lookup_insert_eq.
      * rewrite lookup_insert_ne; [done | congruence].
    + by destruct (decide (None = Some rangeId)).
Qed.

Lemma foldM_setFolder_lookup folders rangeId :
  ∀ m m',
    Raw.foldM Raw.setFolder m folders = Some m' →
    m' !! rangeId
    = match Raw.lastSeen rangeId (Raw.scanned (Arr folders)) with
      | Some names => Some names
      | None => m !! rangeId
      end.
Proof.
  unfold Raw.scanned.
  induction folders as [|folder folders IH]; intros m m'; csimpl.
  - by intros [= <-].
  - destruct (Raw.setFolder m folder) as [m1|] eqn:Hset; csimpl; [|done].
    intros Hrest. rewrite (IH _ _ Hrest), lastSeen_app.
    destruct (Raw.lastSeen rangeId (folders ≫= _)); [done|].
    unfold Raw.setFolder, Raw.rangesOf in *.
    destruct (get folder "ranges") as [[[]|]|]; simpl in Hset; try done.
    by apply foldM_setRange_lookup.
Qed.

Lemma rangeDetailsMap_lookup allFolders m rangeId :
  Raw.rangeDetailsMap allFolders = Some m →
  m !! rangeId = Raw.lastSeen rangeId (Raw.scanned allFolders).
Proof.
  unfold Raw.rangeDetailsMap.
  destruct allFolders; simpl; try done.
  intros Hscan. rewrite (foldM_setFolder_lookup _ rangeId _ _ Hscan).
  rewrite lookup_empty. by destruct (Raw.lastSeen _ _).
Qed.

Lemma processedStats_elem chart allFolders allStats resolved stat :
  Raw.processedStats chart allFolders allStats = Some resolved →
  stat ∈ resolved →
  ∃ m, Raw.rangeDetailsMap allFolders = Some m
       ∧ Raw.processStat allStats m (Raw.Stat.id stat) = Some stat.
Proof.
  unfold Raw.processedStats, Set_.Array_from.
  destruct (Raw.rangeDetailsMap allFolders) as [m|]; simpl; [|done].
  intros Hall%mapM_Some Hin. exists m. split; [done|].
  induction Hall as [|rangeId stat' ids stats Hstat _ IH];
    [by apply elem_of_nil in Hin|].
  apply elem_of_cons in Hin as [-> | Hin]; [|by apply IH].
  by destruct (processStat_Some _ _ _ _ Hstat) as [-> _].
Qed.

(** X17.  The ranking on any storage.  Whenever the [try] block runs to its
    end, on whatever the two items parse to, the list it stores has
    [min(10, n)] entries for [n] collected ids, their ids are collected ids
    and pairwise distinct, no count is [NaN], and the counts descend. *)
Theorem ranking_any_storage chart storage stats :
  Raw.tryBlock chart storage = Some stats →
  length stats = 10 `min` length (chartRangeIds chart) ∧
  NoDup (Raw.Stat.id <$> stats) ∧
  (∀ stat, stat ∈ stats →
     Raw.Stat.id stat ∈ chartRangeIds chart ∧ Raw.Stat.count stat ≠ NaN) ∧
  (∀ i a b, stats !! i = Some a → stats !! S i = Some b →
     geb (Raw.Stat.count a) (Raw.Stat.count b) = true).
Proof.
  intros (allStats & allFolders & resolved & _ & _ & Hresolved & ->)%tryBlock_Some.
  destruct (processedStats_Some _ _ _ _ Hresolved) as [Hids Hcounts].
  split_and!.
  - rewrite <-Hids. unfold slice0.
    by rewrite length_take, sort_length, length_fmap.
  - unfold slice0. rewrite fmap_take.
    apply (sublist_NoDup _ (Raw.Stat.id <$> sort Raw.byCountDesc resolved));
      [|apply sublist_take].
    rewrite sort_Permutation, Hids. apply NoDup_chartRangeIds.
  - intros stat Hin%subseteq_take. rewrite sort_Permutation in Hin. split.
    + rewrite <-Hids. by apply list_elem_of_fmap_2.
    + rewrite Forall_forall in Hcounts.
      by destruct (countOf_Some _ _ _ (Hcounts stat Hin)).
  - intros i a b Ha Hb.
    assert (Sorted descending
              (Raw.erase <$> slice0 10 (sort Raw.byCountDesc resolved)))
      as Hsorted.
    { rewrite erase_topStats. apply Sorted_take, StronglySorted_Sorted.
      apply sort_StronglySorted, Forall_fmap.
      eapply Forall_impl; [by eapply processedStats_counts | done]. }
    apply (Sorted_adjacent descending _ i (Raw.erase a) (Raw.erase b) Hsorted).
    + by rewrite list_lookup_fmap, Ha.
    + by rewrite list_lookup_fmap, Hb.
Qed.

Lemma ranking_any_storage_witness :
  NoDup ["r3"; "r4"; "r2"; "r5"; "r6"; "r1"] ∧
  geb (of_Z 0) (of_Z (-5)) = true.
Proof.
  destruct (ranking_any_storage sixRefs
              (storage (Raw.Parsed mixedTable) Raw.Missing)
              [unnamed "r3" 7; unnamed "r4" 4; unnamed "r2" 1;
               unnamed "r5" 0; unnamed "r6" 0; unnamed "r1" (-5)] eq_refl)
    as (_ & Hdistinct & _ & Hdescending).
  split; [exact Hdistinct|].
  exact (Hdescending 4%nat (unnamed "r6" 0) (unnamed "r1" (-5)) eq_refl eq_refl).
Defined.

(** X18.  The names on any storage.  Whenever resolution goes through, the
    names of an entry are those stored at the last visit of step 2 to a
    range whose [id] is the string the entry stands for, taken as they are
    (a folder or a range without [name] gives [undefined]); when no range
    visited has that id, they are the two placeholders. *)
Theorem names_any_storage chart allFolders allStats resolved stat :
  Raw.processedStats chart allFolders allStats = Some resolved →
  stat ∈ resolved →
  match Raw.lastSeen (Raw.Stat.id stat) (Raw.scanned allFolders) with
  | Some names =>
      Raw.Stat.folderName stat = Raw.Names.folderName names
      ∧ Raw.Stat.rangeName stat = Raw.Names.rangeName names
  | None =>
      Raw.Stat.folderName stat = Some (Str deletedFolder)
      ∧ Raw.Stat.rangeName stat = Some (Str rangeNotFound)
  end ∧
  ((∀ visit, visit ∈ Raw.scanned allFolders →
      Raw.idOf visit.2 ≠ Some (Raw.Stat.id stat)) →
   Raw.Stat.folderName stat = Some (Str deletedFolder)
   ∧ Raw.Stat.rangeName stat = Some (Str rangeNotFound)) ∧
  (∀ visits visit,
     Raw.scanned allFolders = (visits ++ [visit])%list →
     Raw.idOf visit.2 = Some (Raw.Stat.id stat) →
     Raw.Stat.folderName stat = default None (get visit.1 "name")
     ∧ Raw.Stat.rangeName stat = default None (get visit.2 "name")).
Proof.
  intros Hresolved Hin.
  destruct (processedStats_elem _ _ _ _ _ Hresolved Hin) as (m & Hm & Hstat).
  assert (match m !! Raw.Stat.id stat with
          | Some names =>
              Raw.Stat.folderName stat = Raw.Names.folderName names
              ∧ Raw.Stat.rangeName stat = Raw.Names.rangeName names
          | None =>
              Raw.Stat.folderName stat = Some (Str deletedFolder)
              ∧ Raw.Stat.rangeName stat = Some (Str rangeNotFound)
          end) as Hnames.
  { unfold Raw.processStat in Hstat.
    destruct (Raw.countOf allStats (Raw.Stat.id stat)); simpl in Hstat; [|done].
    destruct (m !! Raw.Stat.id stat);
      by injection Hstat as <-. }
  rewrite (rangeDetailsMap_lookup _ _ _ Hm) in Hnames.
  split_and!; [done | |].
  - intros Hnone.
    assert (Raw.lastSeen (Raw.Stat.id stat) (Raw.scanned allFolders) = None)
      as Hlast; [|by rewrite Hlast in Hnames].
    unfold Raw.lastSeen.
    assert (filter (λ visit, Raw.idOf visit.2 = Some (Raw.Stat.id stat))
                   (Raw.scanned allFolders) = []) as ->; [|done].
    apply filter_nil_iff_hidden. intros visit Hvisit. by apply Hnone.
  - intros visits visit Hscan Hid. rewrite Hscan, lastSeen_app in Hnames.
    unfold Raw.lastSeen at 1 in Hnames. rewrite filter_cons_True in Hnames by done.
    done.
Qed.

Lemma names_any_storage_witness :
  (Raw.Stat.folderName (unnamed "r1" (-5)) = Some (Str deletedFolder) ∧
   Raw.Stat.rangeName (unnamed "r1" (-5)) = Some (Str rangeNotFound)) ∧
  (Raw.processedStats (chartOf [normalButton "r1"]) (Arr [folderTwice]) (Obj [])
   = Some [halfNamed] ∧
   Raw.Stat.folderName halfNamed = Some (Str "F") ∧
   Raw.Stat.rangeName halfNamed = None).
Proof.
  split.
  - refine (proj1 (proj2 (names_any_storage sixRefs (Arr []) mixedTable
      [unnamed "r1" (-5); unnamed "r2" 1; unnamed "r3" 7;
       unnamed "r4" 4; unnamed "r5" 0; unnamed "r6" 0]
      (unnamed "r1" (-5)) eq_refl _)) _).
    + apply list_elem_of_here.
    + intros visit Hvisit. by apply elem_of_nil in Hvisit.
  - split; [reflexivity|].
    refine (proj2 (proj2 (names_any_storage
      (chartOf [normalButton "r1"]) (Arr [folderTwice]) (Obj [])
      [halfNamed] halfNamed eq_refl _))
      [(folderTwice, rangeA)] (folderTwice, rangeNameless) eq_refl eq_refl).
    apply list_elem_of_here.
Defined.

End raw_further.

Section refinement.
Import JS Stats Dialog.

Lemma shown_ofStat stats :
  Raw.shown (Raw.ofStat <$> stats) = Raw.ofStat <$> displayed stats.
Proof.
  unfold Raw.shown, displayed. induction stats as [|stat stats IH]; [done|].
  rewrite fmap_cons.
  destruct (decide (gtb (ProcessedStat.count stat) zero = true))
    as [Hshown|Hhidden].
  - rewrite !filter_cons_True by done. by rewrite fmap_cons, IH.
  - by rewrite !filter_cons_False by done.
Qed.

Lemma tryBlock_ofStorage chart storage :
  Raw.tryBlock chart (Raw.ofStorage storage)
  = fmap (M := option) (fmap (M := list) Raw.ofStat) (tryBlock chart storage).
Proof.
  unfold Raw.tryBlock, tryBlock, Raw.ofStorage.
  cbn [Raw.training_statistics Raw.poker_ranges_folders].
  destruct (training_statistics storage) as [| |allStats];
    destruct (poker_ranges_folders storage) as [| |allFolders];
    cbn [Raw.ofItem Raw.parseOr parseOr mbind option_bind fmap option_fmap option_map];
    try done.
  - exact (topStats_ofStorage chart [] ∅).
  - exact (topStats_ofStorage chart allFolders ∅).
  - exact (topStats_ofStorage chart [] allStats).
  - apply topStats_ofStorage.
Qed.

(** X16.  On storage of the declared shapes the two readings of the
    component agree: when the table is a [Record<string, number>] and the
    catalog a [Folder[]], the effect on the parsed values does what the
    effect on the typed values does (same entries, same loading flag, same
    log), every count is the one of the typed reading, and the body shows
    the same entries or the same notice. *)
Theorem declared_shapes props storage st :
  Raw.useEffect props (Raw.ofStorage storage) (Raw.ofState st)
  = (Raw.ofState (useEffect props storage st).1,
     (useEffect props storage st).2) ∧
  (∀ chart,
     Raw.tryBlock chart (Raw.ofStorage storage)
     = fmap (M := option) (fmap (M := list) Raw.ofStat) (tryBlock chart storage)) ∧
  (∀ (allStats : gmap string number) rangeId,
     Raw.countOf (Raw.ofStats allStats) rangeId
     = Some (countOf allStats rangeId)) ∧
  match body st, Raw.body (Raw.ofState st) with
  | Spinner, Raw.Spinner => True
  | NoLinkedRanges, Raw.NoLinkedRanges => True
  | OrderedList rows noData, Raw.OrderedList rows' noData' =>
      noData' = noData
      ∧ rows = row <$> displayed (State.stats st)
      ∧ rows' = Raw.row ∘ Raw.ofStat <$> displayed (State.stats st)
  | _, _ => False
  end.
Proof.
  split_and!.
  - unfold Raw.useEffect, useEffect.
    destruct (chart props) as [chart|]; [|done].
    destruct (isOpen props); [|done].
    rewrite tryBlock_ofStorage.
    by destruct (tryBlock chart storage).
  - intros chart. apply tryBlock_ofStorage.
  - apply countOf_ofStats.
  - unfold body, Raw.body, Raw.ofState.
    cbn [Raw.State.isLoading Raw.State.stats].
    destruct (State.isLoading st); [done|].
    rewrite length_fmap, shown_ofStat, !length_fmap.
    fold (displayed (State.stats st)).
    case_bool_decide; [|done]. split_and!; [done..|].
    by rewrite list_fmap_compose.
Qed.

End refinement.
